(** * Asylo primitives: call marshalling, dispatch and boundary checks

    A shallow embedding of the enclave/host call substrate of Asylo:
    the selector namespace of [primitives.h], the memory layout and the
    boundary validators declared in [trusted_runtime.h], the parameter
    stack, the handler registries, the entry handlers of the host-call
    test enclave ([test_enclave.cc]), the client handle, and the vectored
    I/O paths of [native_paths.cc]. *)

From Stdlib Require Import ZArith Lia Bool List String.
From stdpp Require Import base gmap.
Import ListNotations.

Local Open Scope Z_scope.

(** ** primitives.h: the selector namespace *)

Module Primitives.

(** Selectors are [uint64_t]; no arithmetic is performed on them. *)
Definition Selector := N.

Definition kSelectorAsyloInvalid : Selector := 0%N.
Definition kSelectorAsyloInit : Selector := 1%N.
Definition kSelectorAsyloRun : Selector := 2%N.
Definition kSelectorAsyloDonateThread : Selector := 3%N.
Definition kSelectorAsyloFini : Selector := 4%N.
Definition kSelectorUser : Selector := 128%N.
Definition kSelectorHostCall : Selector := 112%N.

(** "Selector values less than kSelectorUser are reserved by the runtime
    and may not be registered by the applications." *)
Definition reserved_by_runtime (s : Selector) : bool := (s <? kSelectorUser)%N.

Definition available_to_applications (s : Selector) : bool :=
  (kSelectorUser <=? s)%N.

(** Modelled from the spec: the upper end of the host-call sub-range.  The
    header names it [kSelectorRemote] in a comment but does not declare it;
    the specification gives the sub-range as [112, 128). *)
Definition host_call_range_end : Selector := kSelectorUser.

Definition in_host_call_range (s : Selector) : bool :=
  ((kSelectorHostCall <=? s) && (s <? host_call_range_end))%N.

(** The four lifecycle entry points, in the order of the header. *)
Inductive lifecycle := Init | Run | DonateThread | Fini.

Definition lifecycle_selector (l : lifecycle) : Selector :=
  match l with
  | Init => kSelectorAsyloInit
  | Run => kSelectorAsyloRun
  | DonateThread => kSelectorAsyloDonateThread
  | Fini => kSelectorAsyloFini
  end.

End Primitives.

(** ** trusted_runtime.h: memory layout and boundary validators *)

Module Runtime.

(** [struct EnclaveMemoryLayout]: addresses and sizes are 64-bit unsigned
    quantities, kept as mathematical integers. *)
Record EnclaveMemoryLayout := {
  data_base : Z;
  data_size : Z;
  bss_base : Z;
  bss_size : Z;
  heap_base : Z;
  heap_size : Z;
  thread_base : Z;
  thread_size : Z;
  stack_base : Z;
  stack_limit : Z;
  reserved_data_base : Z;
  reserved_data_size : Z;
  reserved_bss_base : Z;
  reserved_bss_size : Z;
  reserved_heap_base : Z;
  reserved_heap_size : Z
}.

(** A region is a base/size pair. *)
Definition region := (Z * Z)%type.

Definition region_end (r : region) : Z := fst r + snd r.

(** The base/size pairs recorded in the layout.  The stack grows down:
    [stack_limit] is its lower bound and [stack_base] its upper bound. *)
Definition regions (l : EnclaveMemoryLayout) : list region :=
  [ (data_base l, data_size l);
    (bss_base l, bss_size l);
    (heap_base l, heap_size l);
    (thread_base l, thread_size l);
    (stack_limit l, stack_base l - stack_limit l);
    (reserved_data_base l, reserved_data_size l);
    (reserved_bss_base l, reserved_bss_size l);
    (reserved_heap_base l, reserved_heap_size l) ].

Definition in_region (x : Z) (r : region) : Prop :=
  fst r <= x < region_end r.

Definition in_regionb (x : Z) (r : region) : bool :=
  (fst r <=? x) && (x <? region_end r).

(** An address belongs to the enclave when one recorded region holds it. *)
Definition in_enclave (l : EnclaveMemoryLayout) (x : Z) : Prop :=
  Exists (in_region x) (regions l).

(** The first region that holds [x], if any. *)
Fixpoint find_region (x : Z) (rs : list region) : option region :=
  match rs with
  | [] => None
  | r :: rs' => if in_regionb x r then Some r else find_region x rs'
  end.

(** Walk the range [a, e) from left to right, each step jumping to the
    end of a region that holds the current address. *)
Fixpoint covers (rs : list region) (fuel : nat) (a e : Z) : bool :=
  if e <=? a then true
  else match fuel with
       | O => false
       | S fuel' =>
           match find_region a rs with
           | None => false
           | Some r => covers rs fuel' (region_end r) e
           end
       end.

(** Modelled from the spec: [enc_is_within_enclave] is only declared in
    [trusted_runtime.h] ("Validates that the address-range [address,
    address + size) is fully contained within the enclave"); its body is
    backend code.  The range is tested against the regions of the layout. *)
Definition enc_is_within_enclave
    (l : EnclaveMemoryLayout) (address size : Z) : bool :=
  covers (regions l) (length (regions l)) address (address + size).

Definition disjoint_from (address size : Z) (r : region) : bool :=
  (size <=? 0) || (snd r <=? 0)
  || (address + size <=? fst r) || (region_end r <=? address).

(** Modelled from the spec: [enc_is_outside_enclave] is only declared in
    [trusted_runtime.h] ("Validates that the address-range [address,
    address + size) is fully contained outside of the enclave"). *)
Definition enc_is_outside_enclave
    (l : EnclaveMemoryLayout) (address size : Z) : bool :=
  forallb (disjoint_from address size) (regions l).

(** The number of regions that end strictly after [a]: the walk of
    [covers] can take no more steps than this. *)
Fixpoint live (rs : list region) (a : Z) : nat :=
  match rs with
  | [] => O
  | r :: rs' => if a <? region_end r then S (live rs' a) else live rs' a
  end.

End Runtime.

(** ** Status values *)

Module Status.

(** The error taxonomy of the call layer. *)
Inductive ErrorCode :=
| Ok
| InvalidArgument
| NotFound
| AlreadyRegistered
| ReservedSelector
| Closed
| Underflow
| SizeMismatch
| CorruptedStack.

(** [PrimitiveStatus]: a success/failure discriminant and a message. *)
Record PrimitiveStatus := {
  error_code : ErrorCode;
  error_message : string
}.

Definition OkStatus : PrimitiveStatus :=
  {| error_code := Ok; error_message := EmptyString |}.

Definition ok (st : PrimitiveStatus) : bool :=
  match error_code st with Ok => true | _ => false end.

Definition failure (c : ErrorCode) : PrimitiveStatus :=
  {| error_code := c; error_message := EmptyString |}.

End Status.

(** ** Byte images of scalar values *)

Module Bytes.

(** A byte is an integer in [0, 256). *)
Definition byte := Z.

(** Little-endian image of [v] on [n] bytes; bits above [8 * n] are
    dropped, as in a conversion to an [n]-byte integer type. *)
Fixpoint encode_le (n : nat) (v : Z) : list byte :=
  match n with
  | O => []
  | S n' => v mod 256 :: encode_le n' (v / 256)
  end.

Fixpoint decode_le (bs : list byte) : Z :=
  match bs with
  | [] => 0
  | b :: bs' => b + 256 * decode_le bs'
  end.

(** A scalar C type: its size in bytes and its signedness. *)
Record ctype := {
  sizeof : nat;
  is_signed : bool
}.

Definition modulus (t : ctype) : Z := 2 ^ (8 * Z.of_nat (sizeof t)).

(** The values of type [t]. *)
Definition in_range (t : ctype) (v : Z) : Prop :=
  if is_signed t then - (modulus t / 2) <= v < modulus t / 2
  else 0 <= v < modulus t.

(** Conversion of an integer to type [t] (two's complement wrap-around). *)
Definition wrap (t : ctype) (v : Z) : Z :=
  if is_signed t
  then (v + modulus t / 2) mod modulus t - modulus t / 2
  else v mod modulus t.

Definition encode (t : ctype) (v : Z) : list byte := encode_le (sizeof t) v.
Definition decode (t : ctype) (bs : list byte) : Z := wrap t (decode_le bs).

(** The scalar types of the handlers, as on x86-64 Linux. *)
Definition int : ctype := {| sizeof := 4; is_signed := true |}.
Definition unsigned_int : ctype := {| sizeof := 4; is_signed := false |}.
Definition uint32_t : ctype := {| sizeof := 4; is_signed := false |}.
Definition mode_t : ctype := {| sizeof := 4; is_signed := false |}.
Definition pid_t : ctype := {| sizeof := 4; is_signed := true |}.
Definition uid_t : ctype := {| sizeof := 4; is_signed := false |}.
Definition gid_t : ctype := {| sizeof := 4; is_signed := false |}.
Definition off_t : ctype := {| sizeof := 8; is_signed := true |}.
Definition size_t : ctype := {| sizeof := 8; is_signed := false |}.
Definition ssize_t : ctype := {| sizeof := 8; is_signed := true |}.

End Bytes.

(** ** The parameter stack *)

Module ParameterStack.
Import Status Bytes.

(** [Extent]: an address and a length; [contents] is what memory holds at
    [address], so the length is [length contents].  An extent owns
    nothing. *)
Record Extent := {
  address : Z;
  contents : list byte
}.

Definition extent_length (e : Extent) : Z := Z.of_nat (length (contents e)).

(** The two capability-restricted variants: data pushed on a [Native]
    stack must lie in host memory, data pushed on a [Trusted] stack in
    enclave memory. *)
Inductive Variant := Native | Trusted.

(** Modelled from the spec: the parameter stack ([parameter_stack.h] is not
    in this source tree).  An ordered sequence of byte buffers
    owned by the stack; the head of [entries] is the most recent push. *)
Record t := {
  variant : Variant;
  entries : list (list byte)
}.

Definition empty (v : Variant) : t := {| variant := v; entries := [] |}.

Definition size (s : t) : nat := length (entries s).

Definition with_entries (s : t) (es : list (list byte)) : t :=
  {| variant := variant s; entries := es |}.

(** The address-space constraint of a variant, decided by the boundary
    validators. *)
Definition admits (l : Runtime.EnclaveMemoryLayout)
    (v : Variant) (e : Extent) : bool :=
  match v with
  | Native => Runtime.enc_is_outside_enclave l (address e) (extent_length e)
  | Trusted => Runtime.enc_is_within_enclave l (address e) (extent_length e)
  end.

(** Modelled from the spec: [push_by_copy(extent)] duplicates the bytes of
    the extent into storage owned by the stack and appends it; it fails
    with [InvalidArgument] when the variant's address-space constraint is
    violated. *)
Definition PushByCopy (l : Runtime.EnclaveMemoryLayout)
    (e : Extent) (s : t) : PrimitiveStatus * t :=
  if admits l (variant s) e
  then (OkStatus, with_entries s (contents e :: entries s))
  else (failure InvalidArgument, s).

(** The typed forms [PushByCopy<T>(value)] and [PushByCopy<T>(buffer,
    n)] copy from storage of the pushing side itself, which meets the
    constraint of that side's variant; they append the bytes. *)
Definition PushBytes (bs : list byte) (s : t) : t :=
  with_entries s (bs :: entries s).

Definition PushValue (ty : ctype) (v : Z) (s : t) : t :=
  PushBytes (encode ty v) s.

(** Modelled from the spec: [pop()] removes and returns the most recently
    pushed entry; it fails with [Underflow] on an empty stack. *)
Definition Pop (s : t) : (PrimitiveStatus + list byte) * t :=
  match entries s with
  | [] => (inl (failure Underflow), s)
  | e :: es => (inr e, with_entries s es)
  end.

(** Modelled from the spec: [pop<T>()] additionally fails with
    [SizeMismatch] when the popped entry is not [sizeof(T)] bytes long. *)
Definition PopValue (ty : ctype) (s : t) : (PrimitiveStatus + Z) * t :=
  match Pop s with
  | (inl st, s') => (inl st, s')
  | (inr e, s') =>
      if Nat.eqb (length e) (sizeof ty)
      then (inr (decode ty e), s')
      else (inl (failure SizeMismatch), s')
  end.

(** The typed pushes of a list of buffers, in order: the last one ends
    on top. *)
Definition push_bytes_all (vs : list (list byte)) (s : t) : t :=
  fold_left (fun acc v => PushBytes v acc) vs s.

(** Push the extents in order, stopping at the first push that fails. *)
Fixpoint push_all (l : Runtime.EnclaveMemoryLayout)
    (es : list Extent) (s : t) : PrimitiveStatus * t :=
  match es with
  | [] => (OkStatus, s)
  | e :: es' =>
      let (st, s') := PushByCopy l e s in
      if ok st then push_all l es' s' else (st, s')
  end.

(** Pop [n] times, collecting the entries in the order they come off. *)
Fixpoint pop_n (n : nat) (s : t) : (PrimitiveStatus + list (list byte)) * t :=
  match n with
  | O => (inr [], s)
  | S n' =>
      match Pop s with
      | (inl st, s') => (inl st, s')
      | (inr e, s') =>
          match pop_n n' s' with
          | (inl st, s'') => (inl st, s'')
          | (inr es, s'') => (inr (e :: es), s'')
          end
      end
  end.

End ParameterStack.

(** ** Handler registries *)

Module Registry.
Import Status Primitives.

(** Who registers: application code, the runtime, or the host-call
    subsystem.  Each may use its own part of the selector namespace. *)
Inductive Registrant := Application | RuntimeSubsystem | HostCallSubsystem.

Definition permitted (who : Registrant) (s : Selector) : bool :=
  match who with
  | Application => available_to_applications s
  | HostCallSubsystem => in_host_call_range s
  | RuntimeSubsystem =>
      ((kSelectorAsyloInvalid <? s) && (s <? kSelectorHostCall))%N
  end.

Section WithHandler.
Context {H : Type}.

(** Modelled from the spec: [register(selector, handler)] of the entry
    table and of the exit-call provider (neither [trusted_primitives]
    nor [dispatch_table] is in this source tree).  It fails with
    [AlreadyRegistered] when the selector is bound, with
    [ReservedSelector] when the registrant may not use the selector, and
    binds the handler otherwise. *)
Definition register (who : Registrant) (s : Selector) (h : H)
    (r : gmap N H) : PrimitiveStatus * gmap N H :=
  match r !! s with
  | Some _ => (failure AlreadyRegistered, r)
  | None =>
      if permitted who s
      then (OkStatus, <[s := h]> r)
      else (failure ReservedSelector, r)
  end.

(** Modelled from the spec: [dispatch] looks the selector up and fails
    with [NotFound] when it is absent. *)
Definition lookup_handler (s : Selector) (r : gmap N H)
    : PrimitiveStatus + H :=
  match r !! s with
  | Some h => inr h
  | None => inl (failure NotFound)
  end.

(** Register the pairs in order; the first failure is returned and the
    remaining registrations are not attempted
    ([ASYLO_RETURN_IF_ERROR]). *)
Fixpoint register_all (who : Registrant) (hs : list (Selector * H))
    (r : gmap N H) : PrimitiveStatus * gmap N H :=
  match hs with
  | [] => (OkStatus, r)
  | (s, h) :: hs' =>
      let (st, r') := register who s h r in
      if ok st then register_all who hs' r' else (st, r')
  end.

End WithHandler.

End Registry.

(** ** test_enclave.cc: the entry handlers of the host-call test enclave *)

Module TestEnclave.
Import Status Bytes.

(** The host calls the handlers issue ([enc_untrusted_*]), with the
    arguments they are given.  A path argument is the popped entry the
    [char *] points into. *)
Inductive HostCall :=
| sys_access (path : list byte) (mode : Z)
| sys_chmod (path : list byte) (mode : Z)
| sys_close (fd : Z)
| sys_fchmod (fd mode : Z)
| sys_getpid
| sys_getppid
| sys_setsid
| sys_kill (pid sig : Z)
| sys_link (old_path new_path : list byte)
| sys_lseek (fd offset whence : Z)
| sys_mkdir (path : list byte) (mode : Z)
| sys_open (path : list byte) (flags : Z) (mode : option Z)
| sys_unlink (path : list byte)
| sys_umask (mask : Z)
| sys_getuid
| sys_getgid
| sys_geteuid
| sys_getegid
| sys_rename (old_path new_path : list byte)
| sys_read (fd count : Z)
| sys_write (fd : Z) (buf : list byte) (count : Z)
| sys_symlink (target linkpath : list byte)
| sys_readlink (path : list byte) (bufsize : Z)
| sys_truncate (path : list byte) (length : Z)
| sys_ftruncate (fd length : Z)
| sys_rmdir (path : list byte)
| sys_socket (domain type protocol : Z)
| sys_fcntl (fd cmd arg : Z)
| sys_chown (path : list byte) (owner group : Z)
| sys_fchown (fd owner group : Z)
| sys_setsockopt (sockfd level optname : Z) (optval : list byte) (optlen : Z)
| sys_flock (fd operation : Z)
| sys_fsync (fd : Z)
| sys_inotify_init1 (flags : Z)
| sys_inotify_add_watch (fd : Z) (path : list byte) (mask : Z)
| sys_inotify_rm_watch (fd wd : Z)
| sys_sched_yield
| sys_isatty (fd : Z)
| sys_usleep (usec : Z).

(** What lies outside the enclave code: the untrusted host, which answers
    each call as it pleases given the calls made so far, and the
    conversion helper of [types_functions.h]. *)
Record Env := {
  (** the integer a host call returns *)
  host_ret : list HostCall -> HostCall -> Z;
  (** the bytes the host hands back for a call that fills a buffer *)
  host_out : list HostCall -> HostCall -> list byte;
  (** how far memory is mapped past the start of a local buffer *)
  mapped : nat;
  (** [FromkLinuxOptionName(&level, &klinux_optname, &optname)] *)
  FromkLinuxOptionName : Z -> Z -> Z
}.

(** An access to the memory around a handler's local buffer; offsets are
    relative to the start of the buffer. *)
Inductive Access :=
| Store (offset len : Z)
| Load (offset len : Z).

Definition within_bounds (capacity : Z) (a : Access) : bool :=
  match a with
  | Store off len | Load off len => (0 <=? off) && (off + len <=? capacity)
  end.

(** What a handler acts on: the parameter stack it is handed, the host
    calls issued so far (most recent first), the memory at and around its
    local buffer, and the accesses made to that memory. *)
Record State := {
  params : ParameterStack.t;
  calls : list HostCall;
  frame : Z -> byte;
  accesses : list Access
}.

Definition set_params (s : State) (p : ParameterStack.t) : State :=
  {| params := p; calls := calls s; frame := frame s;
     accesses := accesses s |}.

(** How a step of a handler ends: it goes on with a value, the handler
    returns a status, the enclave is aborted, or the access faults. *)
Inductive Step (A : Type) :=
| Next (a : A) (s : State)
| Exit (st : PrimitiveStatus) (s : State)
| AbortEnclave (message : string) (s : State)
| Fault (s : State).
Arguments Next {A} a s.
Arguments Exit {A} st s.
Arguments AbortEnclave {A} message s.
Arguments Fault {A} s.

Definition M (A : Type) := State -> Step A.

Definition ret {A} (a : A) : M A := fun s => Next a s.

Definition bind {A B} (m : M A) (k : A -> M B) : M B :=
  fun s =>
    match m s with
    | Next a s' => k a s'
    | Exit st s' => Exit st s'
    | AbortEnclave msg s' => AbortEnclave msg s'
    | Fault s' => Fault s'
    end.

(** [return status;] *)
Definition return_ {A} (st : PrimitiveStatus) : M A := fun s => Exit st s.

Declare Scope handler_scope.
Delimit Scope handler_scope with handler.
Notation "x <- c ;; k" := (bind c (fun x => k))
  (at level 100, c at next level, right associativity) : handler_scope.
Notation "c ;; k" := (bind c (fun _ => k))
  (at level 100, right associativity) : handler_scope.
Local Open Scope handler_scope.

(** A handler body ends with the status it returns. *)
Definition Handler := M PrimitiveStatus.

(** The result of a handler call as the dispatcher sees it. *)
Inductive Outcome :=
| Returned (st : PrimitiveStatus) (s : State)
| Aborted (message : string) (s : State)
| Faulted (s : State).

Definition run (h : Handler) (s : State) : Outcome :=
  match h s with
  | Next st s' | Exit st s' => Returned st s'
  | AbortEnclave msg s' => Aborted msg s'
  | Fault s' => Faulted s'
  end.

Definition outcome_state (o : Outcome) : State :=
  match o with
  | Returned _ s | Aborted _ s | Faulted s => s
  end.

(** *** Stack operations of a handler *)

Definition stack_size : M nat :=
  fun s => Next (ParameterStack.size (params s)) s.

(** [params->Pop()] *)
Definition Pop : M (list byte) :=
  fun s =>
    match ParameterStack.Pop (params s) with
    | (inl st, p) => Exit st (set_params s p)
    | (inr e, p) => Next e (set_params s p)
    end.

(** [params->Pop<T>()] *)
Definition PopAs (ty : ctype) : M Z :=
  fun s =>
    match ParameterStack.PopValue ty (params s) with
    | (inl st, p) => Exit st (set_params s p)
    | (inr v, p) => Next v (set_params s p)
    end.

(** [params->PushByCopy<T>(value)] *)
Definition PushByCopyAs (ty : ctype) (v : Z) : M unit :=
  fun s => Next tt (set_params s (ParameterStack.PushValue ty v (params s))).

(** [params->PushByCopy<char>(buffer, n)], given the bytes of the buffer *)
Definition PushByCopyBytes (bs : list byte) : M unit :=
  fun s => Next tt (set_params s (ParameterStack.PushBytes bs (params s))).

(** Modelled from the spec: the argument-count helper
    [ASYLO_RETURN_IF_INCORRECT_ARGUMENTS(params, n)], declared in a header
    that is not in this source tree: the handler returns
    [InvalidArgument] unless the stack holds exactly [n] entries. *)
Definition ASYLO_RETURN_IF_INCORRECT_ARGUMENTS (n : nat) : M unit :=
  fun s =>
    if Nat.eqb (ParameterStack.size (params s)) n
    then Next tt s
    else Exit (failure InvalidArgument) s.

(** Modelled from the spec: [ASYLO_RETURN_IF_STACK_EMPTY(params)], the
    helper of the handlers that take no argument.  Their callers in
    [host_call_test.cc] hand them an empty stack and expect success, so
    the helper lets an empty stack through; it is taken to be the count
    check for zero arguments. *)
Definition ASYLO_RETURN_IF_STACK_EMPTY : M unit :=
  ASYLO_RETURN_IF_INCORRECT_ARGUMENTS 0.

(** [TrustedPrimitives::BestEffortAbort(message)] does not return. *)
Definition BestEffortAbort {A} (message : string) : M A :=
  fun s => AbortEnclave message s.

(** *** The handler's local buffer *)

Definition store (m : Z -> byte) (off : Z) (data : list byte) : Z -> byte :=
  fun i =>
    if (off <=? i) && (i <? off + Z.of_nat (length data))
    then nth (Z.to_nat (i - off)) data 0
    else m i.

(** The offset of the first NUL byte at or after [off], looking at no more
    than [fuel] bytes. *)
Fixpoint find_nul (m : Z -> byte) (off : Z) (fuel : nat) : option Z :=
  match fuel with
  | O => None
  | S fuel' => if m off =? 0 then Some off else find_nul m (off + 1) fuel'
  end.

(** [buffer[off] = b] *)
Definition buffer_store (off : Z) (b : byte) : M unit :=
  fun s =>
    Next tt {| params := params s; calls := calls s;
               frame := store (frame s) off [b];
               accesses := Store off 1 :: accesses s |}.

(** The [n] bytes at the start of the buffer, as [PushByCopy<char>(buffer,
    n)] reads them. *)
Definition buffer_load (n : Z) : M (list byte) :=
  fun s =>
    Next (map (frame s) (seqZ 0 n))
         {| params := params s; calls := calls s; frame := frame s;
            accesses := Load 0 n :: accesses s |}.

Section Handlers.
Variable env : Env.

(** A host call that moves no data into the enclave: the host's answer
    is returned and the call is recorded. *)
Definition enc_untrusted (c : HostCall) : M Z :=
  fun s =>
    Next (host_ret env (calls s) c)
         {| params := params s; calls := c :: calls s; frame := frame s;
            accesses := accesses s |}.

(** Modelled from the spec: a host call that fills the local buffer
    ([enc_untrusted_read], [enc_untrusted_readlink]; [host_calls.h] is
    not in this source tree).  The call is forwarded to the host
    and what the host hands back, cut to the [capacity] the caller
    announced, is written at the start of the buffer. *)
Definition enc_untrusted_fill (c : HostCall) (capacity : Z) : M Z :=
  fun s =>
    let data := firstn (Z.to_nat capacity) (host_out env (calls s) c) in
    Next (host_ret env (calls s) c)
         {| params := params s; calls := c :: calls s;
            frame := store (frame s) 0 data;
            accesses := Store 0 (Z.of_nat (length data)) :: accesses s |}.

(** [strlen(buffer)]: reads up to and including the first NUL byte;
    faults when it runs off the mapped memory. *)
Definition strlen : M Z :=
  fun s =>
    match find_nul (frame s) 0 (mapped env) with
    | Some n =>
        Next n {| params := params s; calls := calls s; frame := frame s;
                  accesses := Load 0 (n + 1) :: accesses s |}
    | None => Fault s
    end.

(** Message handler that aborts the enclave. *)
Definition Abort : Handler :=
  ASYLO_RETURN_IF_STACK_EMPTY ;;
  @BestEffortAbort unit "Aborting enclave" ;;
  ret OkStatus.

Definition TestAccess : Handler :=
  ASYLO_RETURN_IF_INCORRECT_ARGUMENTS 2 ;;
  mode <- PopAs int ;;
  path_name <- Pop ;;
  r <- enc_untrusted (sys_access path_name mode) ;;
  PushByCopyAs int r ;;
  ret OkStatus.

Definition TestChmod : Handler :=
  ASYLO_RETURN_IF_INCORRECT_ARGUMENTS 2 ;;
  mode <- PopAs mode_t ;;
  path_name <- Pop ;;
  r <- enc_untrusted (sys_chmod path_name mode) ;;
  PushByCopyAs int r ;;
  ret OkStatus.

Definition TestClose : Handler :=
  ASYLO_RETURN_IF_INCORRECT_ARGUMENTS 1 ;;
  fd <- PopAs int ;;
  r <- enc_untrusted (sys_close fd) ;;
  PushByCopyAs int r ;;
  ret OkStatus.

Definition TestFchmod : Handler :=
  ASYLO_RETURN_IF_INCORRECT_ARGUMENTS 2 ;;
  mode <- PopAs mode_t ;;
  fd <- PopAs int ;;
  r <- enc_untrusted (sys_fchmod fd mode) ;;
  PushByCopyAs int r ;;
  ret OkStatus.

Definition TestGetpid : Handler :=
  ASYLO_RETURN_IF_STACK_EMPTY ;;
  r <- enc_untrusted sys_getpid ;;
  PushByCopyAs pid_t r ;;
  ret OkStatus.

Definition TestGetPpid : Handler :=
  ASYLO_RETURN_IF_STACK_EMPTY ;;
  r <- enc_untrusted sys_getppid ;;
  PushByCopyAs pid_t r ;;
  ret OkStatus.

Definition TestSetSid : Handler :=
  ASYLO_RETURN_IF_STACK_EMPTY ;;
  r <- enc_untrusted sys_setsid ;;
  PushByCopyAs pid_t r ;;
  ret OkStatus.

Definition TestKill : Handler :=
  ASYLO_RETURN_IF_INCORRECT_ARGUMENTS 2 ;;
  sig <- PopAs int ;;
  pid <- PopAs pid_t ;;
  r <- enc_untrusted (sys_kill pid sig) ;;
  PushByCopyAs int r ;;
  ret OkStatus.

Definition TestLink : Handler :=
  ASYLO_RETURN_IF_INCORRECT_ARGUMENTS 2 ;;
  new_path <- Pop ;;
  old_path <- Pop ;;
  r <- enc_untrusted (sys_link old_path new_path) ;;
  PushByCopyAs int r ;;
  ret OkStatus.

Definition TestLseek : Handler :=
  ASYLO_RETURN_IF_INCORRECT_ARGUMENTS 3 ;;
  whence <- PopAs int ;;
  offset <- PopAs off_t ;;
  fd <- PopAs int ;;
  r <- enc_untrusted (sys_lseek fd offset whence) ;;
  PushByCopyAs off_t r ;;
  ret OkStatus.

Definition TestMkdir : Handler :=
  ASYLO_RETURN_IF_INCORRECT_ARGUMENTS 2 ;;
  mode <- PopAs mode_t ;;
  pathname <- Pop ;;
  r <- enc_untrusted (sys_mkdir pathname mode) ;;
  PushByCopyAs int r ;;
  ret OkStatus.

(** [open()] can assume 2 or 3 arguments. *)
Definition TestOpen : Handler :=
  n <- stack_size ;;
  if Nat.eqb n 3 then
    mode <- PopAs mode_t ;;
    flags <- PopAs int ;;
    pathname <- Pop ;;
    r <- enc_untrusted (sys_open pathname flags (Some mode)) ;;
    PushByCopyAs int r ;;
    ret OkStatus
  else
    n' <- stack_size ;;
    if Nat.eqb n' 2 then
      flags <- PopAs int ;;
      pathname <- Pop ;;
      r <- enc_untrusted (sys_open pathname flags None) ;;
      PushByCopyAs int r ;;
      ret OkStatus
    else
      return_
        {| error_code := InvalidArgument;
           error_message :=
             "Unexpected number of arguments. open() expects 2 or 3 arguments." |}.

Definition TestUnlink : Handler :=
  ASYLO_RETURN_IF_INCORRECT_ARGUMENTS 1 ;;
  pathname <- Pop ;;
  r <- enc_untrusted (sys_unlink pathname) ;;
  PushByCopyAs int r ;;
  ret OkStatus.

Definition TestUmask : Handler :=
  ASYLO_RETURN_IF_INCORRECT_ARGUMENTS 1 ;;
  mask <- PopAs mode_t ;;
  r <- enc_untrusted (sys_umask mask) ;;
  PushByCopyAs mode_t r ;;
  ret OkStatus.

Definition TestGetuid : Handler :=
  ASYLO_RETURN_IF_STACK_EMPTY ;;
  r <- enc_untrusted sys_getuid ;;
  PushByCopyAs uid_t r ;;
  ret OkStatus.

Definition TestGetgid : Handler :=
  ASYLO_RETURN_IF_STACK_EMPTY ;;
  r <- enc_untrusted sys_getgid ;;
  PushByCopyAs gid_t r ;;
  ret OkStatus.

Definition TestGeteuid : Handler :=
  ASYLO_RETURN_IF_STACK_EMPTY ;;
  r <- enc_untrusted sys_geteuid ;;
  PushByCopyAs uid_t r ;;
  ret OkStatus.

Definition TestGetegid : Handler :=
  ASYLO_RETURN_IF_STACK_EMPTY ;;
  r <- enc_untrusted sys_getegid ;;
  PushByCopyAs gid_t r ;;
  ret OkStatus.

Definition TestRename : Handler :=
  ASYLO_RETURN_IF_INCORRECT_ARGUMENTS 2 ;;
  newpath <- Pop ;;
  oldpath <- Pop ;;
  r <- enc_untrusted (sys_rename oldpath newpath) ;;
  PushByCopyAs int r ;;
  ret OkStatus.

(** [char read_buf[20]] *)
Definition read_buf_size : Z := 20.

Definition TestRead : Handler :=
  ASYLO_RETURN_IF_INCORRECT_ARGUMENTS 2 ;;
  count <- PopAs size_t ;;
  fd <- PopAs int ;;
  r <- enc_untrusted_fill (sys_read fd count) count ;;
  PushByCopyAs ssize_t r ;;
  n <- strlen ;;
  bs <- buffer_load (n + 1) ;;
  PushByCopyBytes bs ;;
  ret OkStatus.

Definition TestWrite : Handler :=
  ASYLO_RETURN_IF_INCORRECT_ARGUMENTS 3 ;;
  count <- PopAs size_t ;;
  write_buf <- Pop ;;
  fd <- PopAs int ;;
  r <- enc_untrusted (sys_write fd write_buf count) ;;
  PushByCopyAs ssize_t r ;;
  ret OkStatus.

Definition TestSymlink : Handler :=
  ASYLO_RETURN_IF_INCORRECT_ARGUMENTS 2 ;;
  linkpath <- Pop ;;
  target <- Pop ;;
  r <- enc_untrusted (sys_symlink target linkpath) ;;
  PushByCopyAs ssize_t r ;;
  ret OkStatus.

(** [PATH_MAX] of <limits.h> on Linux. *)
Definition PATH_MAX : Z := 4096.

Definition TestReadlink : Handler :=
  ASYLO_RETURN_IF_INCORRECT_ARGUMENTS 1 ;;
  pathname <- Pop ;;
  len <- enc_untrusted_fill (sys_readlink pathname (PATH_MAX - 1))
                            (PATH_MAX - 1) ;;
  PushByCopyAs ssize_t len ;;
  buffer_store (wrap ssize_t len) 0 ;;
  n <- strlen ;;
  bs <- buffer_load (n + 1) ;;
  PushByCopyBytes bs ;;
  ret OkStatus.

Definition TestTruncate : Handler :=
  ASYLO_RETURN_IF_INCORRECT_ARGUMENTS 2 ;;
  length <- PopAs off_t ;;
  path <- Pop ;;
  r <- enc_untrusted (sys_truncate path length) ;;
  PushByCopyAs int r ;;
  ret OkStatus.

Definition TestFTruncate : Handler :=
  ASYLO_RETURN_IF_INCORRECT_ARGUMENTS 2 ;;
  length <- PopAs off_t ;;
  fd <- PopAs int ;;
  r <- enc_untrusted (sys_ftruncate fd length) ;;
  PushByCopyAs int r ;;
  ret OkStatus.

Definition TestRmdir : Handler :=
  ASYLO_RETURN_IF_INCORRECT_ARGUMENTS 1 ;;
  path <- Pop ;;
  r <- enc_untrusted (sys_rmdir path) ;;
  PushByCopyAs int r ;;
  ret OkStatus.

Definition TestSocket : Handler :=
  ASYLO_RETURN_IF_INCORRECT_ARGUMENTS 3 ;;
  protocol <- PopAs int ;;
  type <- PopAs int ;;
  domain <- PopAs int ;;
  r <- enc_untrusted (sys_socket domain type protocol) ;;
  PushByCopyAs int r ;;
  ret OkStatus.

Definition TestFcntl : Handler :=
  ASYLO_RETURN_IF_INCORRECT_ARGUMENTS 3 ;;
  arg <- PopAs int ;;
  cmd <- PopAs int ;;
  fd <- PopAs int ;;
  r <- enc_untrusted (sys_fcntl fd cmd arg) ;;
  PushByCopyAs int r ;;
  ret OkStatus.

Definition TestChown : Handler :=
  ASYLO_RETURN_IF_INCORRECT_ARGUMENTS 3 ;;
  group <- PopAs gid_t ;;
  owner <- PopAs uid_t ;;
  pathname <- Pop ;;
  r <- enc_untrusted (sys_chown pathname owner group) ;;
  PushByCopyAs int r ;;
  ret OkStatus.

Definition TestFChown : Handler :=
  ASYLO_RETURN_IF_INCORRECT_ARGUMENTS 3 ;;
  group <- PopAs gid_t ;;
  owner <- PopAs uid_t ;;
  fd <- PopAs int ;;
  r <- enc_untrusted (sys_fchown fd owner group) ;;
  PushByCopyAs int r ;;
  ret OkStatus.

Definition TestSetsockopt : Handler :=
  ASYLO_RETURN_IF_INCORRECT_ARGUMENTS 4 ;;
  option <- PopAs int ;;
  klinux_optname <- PopAs int ;;
  level <- PopAs int ;;
  sockfd <- PopAs int ;;
  let optname := FromkLinuxOptionName env level klinux_optname in
  r <- enc_untrusted
         (sys_setsockopt sockfd level optname (encode int option)
                         (Z.of_nat (sizeof int))) ;;
  PushByCopyAs int r ;;
  ret OkStatus.

Definition TestFlock : Handler :=
  ASYLO_RETURN_IF_INCORRECT_ARGUMENTS 2 ;;
  operation <- PopAs int ;;
  fd <- PopAs int ;;
  r <- enc_untrusted (sys_flock fd operation) ;;
  PushByCopyAs int r ;;
  ret OkStatus.

Definition TestFsync : Handler :=
  ASYLO_RETURN_IF_INCORRECT_ARGUMENTS 1 ;;
  fd <- PopAs int ;;
  r <- enc_untrusted (sys_fsync fd) ;;
  PushByCopyAs int r ;;
  ret OkStatus.

Definition TestInotifyInit1 : Handler :=
  ASYLO_RETURN_IF_INCORRECT_ARGUMENTS 1 ;;
  flags <- PopAs int ;;
  r <- enc_untrusted (sys_inotify_init1 flags) ;;
  PushByCopyAs int r ;;
  ret OkStatus.

Definition TestInotifyAddWatch : Handler :=
  ASYLO_RETURN_IF_INCORRECT_ARGUMENTS 3 ;;
  mask <- PopAs uint32_t ;;
  pathname <- Pop ;;
  fd <- PopAs int ;;
  r <- enc_untrusted (sys_inotify_add_watch fd pathname mask) ;;
  PushByCopyAs int r ;;
  ret OkStatus.

Definition TestInotifyRmWatch : Handler :=
  ASYLO_RETURN_IF_INCORRECT_ARGUMENTS 2 ;;
  wd <- PopAs int ;;
  fd <- PopAs int ;;
  r <- enc_untrusted (sys_inotify_rm_watch fd wd) ;;
  PushByCopyAs int r ;;
  ret OkStatus.

Definition TestSchedYield : Handler :=
  ASYLO_RETURN_IF_STACK_EMPTY ;;
  r <- enc_untrusted sys_sched_yield ;;
  PushByCopyAs int r ;;
  ret OkStatus.

Definition TestIsAtty : Handler :=
  ASYLO_RETURN_IF_INCORRECT_ARGUMENTS 1 ;;
  fd <- PopAs int ;;
  r <- enc_untrusted (sys_isatty fd) ;;
  PushByCopyAs int r ;;
  ret OkStatus.

Definition TestUSleep : Handler :=
  ASYLO_RETURN_IF_INCORRECT_ARGUMENTS 1 ;;
  usec <- PopAs unsigned_int ;;
  r <- enc_untrusted (sys_usleep usec) ;;
  PushByCopyAs int r ;;
  ret OkStatus.

End Handlers.

(** *** asylo_enclave_init: the entry table of the test enclave *)

(** The selectors of [enclave_test_selectors.h], by name; their values
    are not in this source tree and are left to the caller. *)
Inductive TestSelector :=
| kAbortEnclaveSelector | kTestAccess | kTestChmod | kTestClose
| kTestFchmod | kTestGetPid | kTestGetPpid | kTestSetSid | kTestKill
| kTestLink | kTestLseek | kTestMkdir | kTestOpen | kTestUnlink
| kTestUmask | kTestGetUid | kTestGetGid | kTestGetEuid | kTestGetEgid
| kTestRename | kTestRead | kTestWrite | kTestSymlink | kTestReadLink
| kTestTruncate | kTestFTruncate | kTestRmdir | kTestSocket | kTestFcntl
| kTestChown | kTestFChown | kTestSetSockOpt | kTestFlock | kTestFsync
| kTestInotifyInit1 | kTestInotifyAddWatch | kTestInotifyRmWatch
| kTestSchedYield | kTestIsAtty | kTestUSleep.

(** The handler [asylo_enclave_init] registers under each selector. *)
Definition entry_handler (env : Env) (t : TestSelector) : Handler :=
  match t with
  | kAbortEnclaveSelector => Abort
  | kTestAccess => TestAccess env
  | kTestChmod => TestChmod env
  | kTestClose => TestClose env
  | kTestFchmod => TestFchmod env
  | kTestGetPid => TestGetpid env
  | kTestGetPpid => TestGetPpid env
  | kTestSetSid => TestSetSid env
  | kTestKill => TestKill env
  | kTestLink => TestLink env
  | kTestLseek => TestLseek env
  | kTestMkdir => TestMkdir env
  | kTestOpen => TestOpen env
  | kTestUnlink => TestUnlink env
  | kTestUmask => TestUmask env
  | kTestGetUid => TestGetuid env
  | kTestGetGid => TestGetgid env
  | kTestGetEuid => TestGeteuid env
  | kTestGetEgid => TestGetegid env
  | kTestRename => TestRename env
  | kTestRead => TestRead env
  | kTestWrite => TestWrite env
  | kTestSymlink => TestSymlink env
  | kTestReadLink => TestReadlink env
  | kTestTruncate => TestTruncate env
  | kTestFTruncate => TestFTruncate env
  | kTestRmdir => TestRmdir env
  | kTestSocket => TestSocket env
  | kTestFcntl => TestFcntl env
  | kTestChown => TestChown env
  | kTestFChown => TestFChown env
  | kTestSetSockOpt => TestSetsockopt env
  | kTestFlock => TestFlock env
  | kTestFsync => TestFsync env
  | kTestInotifyInit1 => TestInotifyInit1 env
  | kTestInotifyAddWatch => TestInotifyAddWatch env
  | kTestInotifyRmWatch => TestInotifyRmWatch env
  | kTestSchedYield => TestSchedYield env
  | kTestIsAtty => TestIsAtty env
  | kTestUSleep => TestUSleep env
  end.

(** The order in which [asylo_enclave_init] registers them. *)
Definition registration_order : list TestSelector :=
  [ kAbortEnclaveSelector; kTestAccess; kTestChmod; kTestClose;
    kTestFchmod; kTestGetPid; kTestGetPpid; kTestSetSid; kTestKill;
    kTestLink; kTestLseek; kTestMkdir; kTestOpen; kTestUnlink;
    kTestUmask; kTestGetUid; kTestGetGid; kTestGetEuid; kTestGetEgid;
    kTestRename; kTestRead; kTestWrite; kTestSymlink; kTestReadLink;
    kTestTruncate; kTestFTruncate; kTestRmdir; kTestSocket; kTestFcntl;
    kTestChown; kTestFChown; kTestSetSockOpt; kTestFlock; kTestFsync;
    kTestInotifyInit1; kTestInotifyAddWatch; kTestInotifyRmWatch;
    kTestSchedYield; kTestIsAtty; kTestUSleep ].

(** [asylo_enclave_init]: each handler is registered as application code
    and the first failing registration ends the initialisation with its
    status. *)
Definition asylo_enclave_init (env : Env)
    (selector_value : TestSelector -> Primitives.Selector)
    (table : gmap N Handler) : PrimitiveStatus * gmap N Handler :=
  Registry.register_all Registry.Application
    (map (fun t => (selector_value t, entry_handler env t))
         registration_order)
    table.

(** The argument counts a handler accepts, as it checks them. *)
Definition accepted_argument_counts (t : TestSelector) : list nat :=
  match t with
  | kAbortEnclaveSelector | kTestGetPid | kTestGetPpid | kTestSetSid
  | kTestGetUid | kTestGetGid | kTestGetEuid | kTestGetEgid
  | kTestSchedYield => [0%nat]
  | kTestClose | kTestUnlink | kTestUmask | kTestReadLink | kTestRmdir
  | kTestFsync | kTestInotifyInit1 | kTestIsAtty | kTestUSleep => [1%nat]
  | kTestAccess | kTestChmod | kTestFchmod | kTestKill | kTestLink
  | kTestMkdir | kTestRename | kTestRead | kTestSymlink | kTestTruncate
  | kTestFTruncate | kTestFlock | kTestInotifyRmWatch => [2%nat]
  | kTestLseek | kTestWrite | kTestSocket | kTestFcntl | kTestChown
  | kTestFChown | kTestInotifyAddWatch => [3%nat]
  | kTestSetSockOpt => [4%nat]
  | kTestOpen => [2%nat; 3%nat]
  end.

(** The number of values a handler leaves on the stack when it succeeds,
    as its caller in [host_call_test.cc] expects them. *)
Definition declared_results (t : TestSelector) : nat :=
  match t with
  | kAbortEnclaveSelector => 0
  | kTestRead | kTestReadLink => 2
  | _ => 1
  end.

End TestEnclave.

(** ** The client: the host-side handle to a loaded enclave *)

Module Client.
Import Status TestEnclave.

(** An exit handler acts on the host-side stack it is handed. *)
Definition ExitHandler :=
  ParameterStack.t -> PrimitiveStatus * ParameterStack.t.

Inductive LifecycleState := Loaded | Destroyed.

(** The isolated context a client refers to: its entry table and the
    snapshot of its memory layout. *)
Record Enclave := {
  entry_table : gmap N Handler;
  memory_layout : Runtime.EnclaveMemoryLayout
}.

(** Modelled from the spec: the client ([untrusted_primitives.h] is not
    in this source tree): a handle to the isolated context, the
    exit-call provider and the lifecycle state, [Loaded] or closed
    ([Destroyed]). *)
Record t := {
  enclave : Enclave;
  exit_call_provider : gmap N ExitHandler;
  lifecycle_state : LifecycleState
}.

(** Modelled from the spec: [IsClosed()], a query. *)
Definition IsClosed (c : t) : bool :=
  match lifecycle_state c with
  | Loaded => false
  | Destroyed => true
  end.

(** Modelled from the spec: [Destroy()] moves the client to the closed
    state and releases the resources of the isolated context; on a closed
    client it changes nothing.  (Calls are sequential here, so no entry is
    in flight when [Destroy] runs.) *)
Definition Destroy (c : t) : t :=
  match lifecycle_state c with
  | Destroyed => c
  | Loaded =>
      {| enclave := {| entry_table := ∅;
                       memory_layout := memory_layout (enclave c) |};
         exit_call_provider := exit_call_provider c;
         lifecycle_state := Destroyed |}
  end.

(** What the caller of [EnclaveCall] observes: a status and the stack, or
    the end of the enclave. *)
Inductive CallResult :=
| CallReturned (st : PrimitiveStatus) (stack : ParameterStack.t)
| EnclaveAborted (message : string)
| EnclaveFaulted.

(** The state in which a handler starts: the stack rebuilt on the enclave
    side as a [Trusted] stack with the caller's entries, the host calls
    made so far, and a local buffer of unspecified contents. *)
Definition entry_state (history : list HostCall) (garbage : Z -> Bytes.byte)
    (stack : ParameterStack.t) : State :=
  {| params := {| ParameterStack.variant := ParameterStack.Trusted;
                  ParameterStack.entries := ParameterStack.entries stack |};
     calls := history;
     frame := garbage;
     accesses := [] |}.

(** Modelled from the spec: [EnclaveCall(selector, stack)] fails at once
    with [Closed] on a closed client; otherwise the stack crosses the
    boundary, the handler bound to the selector runs ([NotFound] when
    there is none), and the entries it leaves replace those of the
    caller's stack.  The serialised form is not observable and is not
    represented. *)
Definition EnclaveCall (history : list HostCall) (garbage : Z -> Bytes.byte)
    (c : t) (selector : Primitives.Selector) (stack : ParameterStack.t)
    : CallResult :=
  if IsClosed c then CallReturned (failure Closed) stack
  else
    match Registry.lookup_handler selector (entry_table (enclave c)) with
    | inl st => CallReturned st stack
    | inr h =>
        match run h (entry_state history garbage stack) with
        | Returned st s' =>
            CallReturned st
              (ParameterStack.with_entries stack
                 (ParameterStack.entries (params s')))
        | Aborted msg _ => EnclaveAborted msg
        | Faulted _ => EnclaveFaulted
        end
    end.

(** [Destroy] called [n] times in a row. *)
Fixpoint destroy_times (n : nat) (c : t) : t :=
  match n with
  | O => c
  | S n' => Destroy (destroy_times n' c)
  end.

(** [TrustedPrimitives::RegisterEntryHandler], called by enclave
    application code as in [asylo_enclave_init]. *)
Definition RegisterEntryHandler (s : Primitives.Selector) (h : Handler)
    (table : gmap N Handler) : PrimitiveStatus * gmap N Handler :=
  Registry.register Registry.Application s h table.

(** [client->exit_call_provider()->RegisterExitHandler], called by host
    application code as in [hello_driver.cc]. *)
Definition RegisterExitHandler (s : Primitives.Selector) (h : ExitHandler)
    (c : t) : PrimitiveStatus * t :=
  let (st, r) :=
    Registry.register Registry.Application s h (exit_call_provider c) in
  (st, {| enclave := enclave c; exit_call_provider := r;
          lifecycle_state := lifecycle_state c |}).

End Client.

(** ** hello_driver.cc: an exit handler installed by the host application *)

Module HelloDriver.
Import Status Bytes.

(** [kHello], without its NUL: the handler pushes [strlen(kHello)] bytes. *)
Definition kHello : list byte := [72; 101; 108; 108; 111].

(** When the enclave asks for it, send "Hello": the message is pushed on
    the host-side stack from the host address [kHello_address]; the handler
    returns [OkStatus] whatever the push did. *)
Definition hello_handler (l : Runtime.EnclaveMemoryLayout)
    (kHello_address : Z) : Client.ExitHandler :=
  fun params =>
    let (_, params') :=
      ParameterStack.PushByCopy l
        {| ParameterStack.address := kHello_address;
           ParameterStack.contents := kHello |}
        params in
    (OkStatus, params').

(** The registration of [call_enclave]: the client was loaded with an empty
    table of exit handlers and [hello_handler] is added under
    [kExternalHelloHandler], a selector of [hello_enclave.h]. *)
Definition register_hello (l : Runtime.EnclaveMemoryLayout)
    (kHello_address : Z) (kExternalHelloHandler : Primitives.Selector)
    (client : Client.t) : PrimitiveStatus * Client.t :=
  Client.RegisterExitHandler kExternalHelloHandler
    (hello_handler l kHello_address) client.

End HelloDriver.

(** ** native_paths.cc: vectored I/O on a host file descriptor *)

Module NativePaths.
Import Bytes.

(** [struct iovec]: [iov_base] is given by the bytes found there. *)
Record iovec := {
  iov_base : list byte;
  iov_len : Z
}.

(** What the enclave code does towards the untrusted side. *)
Inductive Event :=
| Malloc (size : Z)
| HostWritev (fd : Z) (buf : list byte) (size : Z)
| HostReadv (fd : Z) (iovcnt : Z) (size : Z).

Record World := {
  errno : Z;
  events : list Event
}.

Definition EINVAL : Z := 22.

(** The untrusted side: whether the buffer pool can serve a request, and
    what the host answers. *)
Record Env := {
  malloc_succeeds : list Event -> Z -> bool;
  host_result : list Event -> Event -> Z
}.

Definition record (e : Event) (w : World) : World :=
  {| errno := errno w; events := e :: events w |}.

(** [iov[i]]; past the end of the given array it reads as an empty
    buffer. *)
Definition iov_at (iov : list iovec) (i : nat) : iovec :=
  nth i iov {| iov_base := []; iov_len := 0 |}.

(** The loop [for (i = 0; i < iovcnt; ++i) total_size += iov[i].iov_len],
    in [size_t] arithmetic. *)
Definition total_size (iov : list iovec) (iovcnt : Z) : Z :=
  fold_left (fun acc i => wrap size_t (acc + iov_len (iov_at iov i)))
            (seq 0 (Z.to_nat iovcnt)) 0.

(** [CreateUntrustedBuffer]: the size handed back is an [int]. *)
Definition CreateUntrustedBuffer (env : Env) (iov : list iovec) (iovcnt : Z)
    (w : World) : option Z * World :=
  let total := total_size iov iovcnt in
  let w' := record (Malloc total) w in
  if malloc_succeeds env (events w) total
  then (Some (wrap int total), w')
  else (None, w').

(** [SerializeIov]: the buffers are copied one after the other. *)
Definition SerializeIov (env : Env) (iov : list iovec) (iovcnt : Z)
    (w : World) : option (list byte * Z) * World :=
  match CreateUntrustedBuffer env iov iovcnt w with
  | (None, w') => (None, w')
  | (Some size, w') =>
      let buf :=
        flat_map (fun i => firstn (Z.to_nat (iov_len (iov_at iov i)))
                                  (iov_base (iov_at iov i)))
                 (seq 0 (Z.to_nat iovcnt)) in
      (Some (buf, size), w')
  end.

Definition Writev (env : Env) (host_fd : Z) (iov : list iovec) (iovcnt : Z)
    (w : World) : Z * World :=
  if iovcnt <=? 0 then (-1, {| errno := EINVAL; events := events w |})
  else
    match SerializeIov env iov iovcnt w with
    | (None, w') => (-1, w')
    | (Some (buf, size), w') =>
        let call := HostWritev host_fd buf size in
        (host_result env (events w') call, record call w')
    end.

Definition Readv (env : Env) (host_fd : Z) (iov : list iovec) (iovcnt : Z)
    (w : World) : Z * World :=
  if iovcnt <=? 0 then (-1, {| errno := EINVAL; events := events w |})
  else
    match CreateUntrustedBuffer env iov iovcnt w with
    | (None, w') => (-1, w')
    | (Some size, w') =>
        let call := HostReadv host_fd iovcnt size in
        (host_result env (events w') call, record call w')
    end.

End NativePaths.

(** ** Concrete inputs *)

Module Examples.
Import Status Bytes TestEnclave.

(** The bytes of a C string, with its terminating NUL. *)
Definition c_str (s : string) : list byte :=
  map (fun a => Z.of_N (Ascii.N_of_ascii a)) (list_ascii_of_string s) ++ [0].

(** An enclave whose data section is [4096, 8192) and whose other regions
    are empty. *)
Definition small_layout : Runtime.EnclaveMemoryLayout :=
  {| Runtime.data_base := 4096; Runtime.data_size := 4096;
     Runtime.bss_base := 0; Runtime.bss_size := 0;
     Runtime.heap_base := 0; Runtime.heap_size := 0;
     Runtime.thread_base := 0; Runtime.thread_size := 0;
     Runtime.stack_base := 0; Runtime.stack_limit := 0;
     Runtime.reserved_data_base := 0; Runtime.reserved_data_size := 0;
     Runtime.reserved_bss_base := 0; Runtime.reserved_bss_size := 0;
     Runtime.reserved_heap_base := 0; Runtime.reserved_heap_size := 0 |}.

(** Two host buffers, as a host caller pushes them. *)
Definition host_extents : list ParameterStack.Extent :=
  [ {| ParameterStack.address := 100; ParameterStack.contents := [1; 2; 3] |};
    {| ParameterStack.address := 200; ParameterStack.contents := [4; 5] |} ].

(** A host that answers 0 to every call and hands back no data. *)
Definition quiet_env : Env :=
  {| host_ret := fun _ _ => 0;
     host_out := fun _ _ => [];
     mapped := 64;
     FromkLinuxOptionName := fun _ name => name |}.

Definition zero_frame : Z -> byte := fun _ => 0.

(** The file of [HostCallTest.TestRead]: 26 characters and a NUL. *)
Definition expected_content : list byte := c_str "this is what's being read!".

(** A host on which every descriptor reads [expected_content]. *)
Definition reading_env : Env :=
  {| host_ret := fun _ c =>
       match c with
       | sys_read _ count => Z.min count (Z.of_nat (length expected_content))
       | _ => 0
       end;
     host_out := fun _ c =>
       match c with
       | sys_read _ _ => expected_content
       | _ => []
       end;
     mapped := 64;
     FromkLinuxOptionName := fun _ name => name |}.

(** The stack of [HostCallTest.TestRead]: the descriptor, then the count
    [expected_content.length() + 1]. *)
Definition read_request (fd : Z) : ParameterStack.t :=
  ParameterStack.PushValue size_t 27
    (ParameterStack.PushValue int fd
       (ParameterStack.empty ParameterStack.Native)).

(** A loaded client whose enclave binds [Abort] to selector 128. *)
Definition abort_client : Client.t :=
  {| Client.enclave :=
       {| Client.entry_table := {[ 128%N := Abort ]};
          Client.memory_layout := small_layout |};
     Client.exit_call_provider := ∅;
     Client.lifecycle_state := Client.Loaded |}.

(** A loaded client whose enclave binds [TestAccess] to selector 129. *)
Definition access_client : Client.t :=
  {| Client.enclave :=
       {| Client.entry_table := {[ 129%N := TestAccess quiet_env ]};
          Client.memory_layout := small_layout |};
     Client.exit_call_provider := ∅;
     Client.lifecycle_state := Client.Loaded |}.

(** The stack of [HostCallTest.TestAccessNonExistentPath]. *)
Definition access_request : ParameterStack.t :=
  ParameterStack.PushValue int 0
    (ParameterStack.PushBytes (c_str "illegal_path")
       (ParameterStack.empty ParameterStack.Native)).

Definition one_entry_stack : ParameterStack.t :=
  ParameterStack.PushValue int 7
    (ParameterStack.empty ParameterStack.Native).

(** A buffer pool that serves every request and a host that answers
    with the size it was given. *)
Definition pool_env : NativePaths.Env :=
  {| NativePaths.malloc_succeeds := fun _ _ => true;
     NativePaths.host_result := fun _ e =>
       match e with
       | NativePaths.HostWritev _ _ size => size
       | NativePaths.HostReadv _ _ size => size
       | NativePaths.Malloc _ => 0
       end |}.

Definition fresh_world : NativePaths.World :=
  {| NativePaths.errno := 0; NativePaths.events := [] |}.

Definition two_buffers : list NativePaths.iovec :=
  [ {| NativePaths.iov_base := [104; 105]; NativePaths.iov_len := 2 |};
    {| NativePaths.iov_base := [33]; NativePaths.iov_len := 1 |} ].

End Examples.

(** ** native_paths.cc: opening a path and the message calls *)

Module IOContext.
Import Bytes.

(** The calls that leave the enclave from the functions below. *)
Inductive HostCall :=
| untrusted_open (path : list byte) (flags mode : Z)
| untrusted_close (fd : Z)
| untrusted_fsync (fd : Z)
| untrusted_isatty (fd : Z)
| untrusted_sendmsg (fd : Z) (msg : list byte) (flags : Z)
| untrusted_recvmsg (fd : Z) (msg : list byte) (flags : Z).

Record World := {
  errno : Z;
  calls : list HostCall
}.


(** What the functions rely on and do not define: the host's answers,
    whether [BridgeMsghdrWrapper::CopyAllBuffers] manages to copy, the flag
    [O_SECURE], and [IOContextSecure::Create]. *)
Record Env := {
  host_result : list HostCall -> HostCall -> Z;
  CopyAllBuffers : list HostCall -> list byte -> bool;
  O_SECURE : Z;
  IOContextSecure_Create : list byte -> Z -> Z -> option Z
}.


Definition enc_untrusted (env : Env) (c : HostCall) (w : World) : Z * World :=
  (host_result env (calls w) c, {| errno := errno w; calls := c :: calls w |}).



Definition Close (env : Env) (host_fd_ : Z) (w : World) : Z * World :=
  enc_untrusted env (untrusted_close host_fd_) w.

Definition FSync (env : Env) (host_fd_ : Z) (w : World) : Z * World :=
  enc_untrusted env (untrusted_fsync host_fd_) w.

Definition Isatty (env : Env) (host_fd_ : Z) (w : World) : Z * World :=
  enc_untrusted env (untrusted_isatty host_fd_) w.



End IOContext.

(** ** Tables read off test_enclave.cc and host_call_test.cc *)

Module HandlerTables.
Import Bytes TestEnclave.

(** The type of the value a handler pushes with [PushByCopy<T>] for the
    host call's result. *)
Definition result_type (t : TestSelector) : ctype :=
  match t with
  | kTestGetPid | kTestGetPpid | kTestSetSid => pid_t
  | kTestLseek => off_t
  | kTestUmask => mode_t
  | kTestGetUid | kTestGetEuid => uid_t
  | kTestGetGid | kTestGetEgid => gid_t
  | kTestRead | kTestWrite | kTestSymlink | kTestReadLink => ssize_t
  | _ => int
  end.


(** The index of the first NUL byte of a list. *)
Fixpoint first_nul (bs : list byte) : option nat :=
  match bs with
  | [] => None
  | b :: bs' =>
      if b =? 0 then Some O
      else match first_nul bs' with
           | Some n => Some (S n)
           | None => None
           end
  end.

(** The sum of the lengths of an [iovec] array. *)
Definition sum_iov_len (iov : list NativePaths.iovec) : Z :=
  fold_right (fun v acc => NativePaths.iov_len v + acc) 0 iov.

(** An [iovec] whose length is that of the bytes found at its base. *)
Definition iovec_exact (v : NativePaths.iovec) : Prop :=
  NativePaths.iov_len v = Z.of_nat (length (NativePaths.iov_base v)).

End HandlerTables.

(** ** More concrete inputs *)

Module MoreExamples.
Import Bytes.

(** A buffer pool that cannot serve any request. *)
Definition exhausted_env : NativePaths.Env :=
  {| NativePaths.malloc_succeeds := fun _ _ => false;
     NativePaths.host_result := fun _ _ => 0 |}.

(** One buffer announced with a length of 2^31 bytes. *)
Definition huge_buffer : list NativePaths.iovec :=
  [ {| NativePaths.iov_base := []; NativePaths.iov_len := 2 ^ 31 |} ].



(** A host whose [read] hands back the three bytes of "hi" and whose
    [readlink] answers with the two bytes of "/x"; a page of memory is
    mapped past the start of a local buffer. *)
Definition greeting_env : TestEnclave.Env :=
  {| TestEnclave.host_ret := fun _ c =>
       match c with
       | TestEnclave.sys_read _ _ => 3
       | TestEnclave.sys_readlink _ _ => 2
       | _ => 0
       end;
     TestEnclave.host_out := fun _ c =>
       match c with
       | TestEnclave.sys_read _ _ => [104; 105; 0]
       | TestEnclave.sys_readlink _ _ => [47; 120]
       | _ => []
       end;
     TestEnclave.mapped := 4096;
     TestEnclave.FromkLinuxOptionName := fun _ name => name |}.

(** A host on which every call fails with -1. *)
Definition failing_env : TestEnclave.Env :=
  {| TestEnclave.host_ret := fun _ _ => -1;
     TestEnclave.host_out := fun _ _ => [];
     TestEnclave.mapped := 4096;
     TestEnclave.FromkLinuxOptionName := fun _ name => name |}.

(** A loaded client whose enclave binds the given handler to selector
    130. *)
Definition client_with (h : TestEnclave.Handler) : Client.t :=
  {| Client.enclave :=
       {| Client.entry_table := {[ 130%N := h ]};
          Client.memory_layout := Examples.small_layout |};
     Client.exit_call_provider := ∅;
     Client.lifecycle_state := Client.Loaded |}.

(** One way to number the selectors of the test enclave: consecutively
    from [kSelectorUser], in the order of registration. *)
Definition selector_index (t : TestEnclave.TestSelector) : N :=
  match t with
  | TestEnclave.kAbortEnclaveSelector => 0
  | TestEnclave.kTestAccess => 1
  | TestEnclave.kTestChmod => 2
  | TestEnclave.kTestClose => 3
  | TestEnclave.kTestFchmod => 4
  | TestEnclave.kTestGetPid => 5
  | TestEnclave.kTestGetPpid => 6
  | TestEnclave.kTestSetSid => 7
  | TestEnclave.kTestKill => 8
  | TestEnclave.kTestLink => 9
  | TestEnclave.kTestLseek => 10
  | TestEnclave.kTestMkdir => 11
  | TestEnclave.kTestOpen => 12
  | TestEnclave.kTestUnlink => 13
  | TestEnclave.kTestUmask => 14
  | TestEnclave.kTestGetUid => 15
  | TestEnclave.kTestGetGid => 16
  | TestEnclave.kTestGetEuid => 17
  | TestEnclave.kTestGetEgid => 18
  | TestEnclave.kTestRename => 19
  | TestEnclave.kTestRead => 20
  | TestEnclave.kTestWrite => 21
  | TestEnclave.kTestSymlink => 22
  | TestEnclave.kTestReadLink => 23
  | TestEnclave.kTestTruncate => 24
  | TestEnclave.kTestFTruncate => 25
  | TestEnclave.kTestRmdir => 26
  | TestEnclave.kTestSocket => 27
  | TestEnclave.kTestFcntl => 28
  | TestEnclave.kTestChown => 29
  | TestEnclave.kTestFChown => 30
  | TestEnclave.kTestSetSockOpt => 31
  | TestEnclave.kTestFlock => 32
  | TestEnclave.kTestFsync => 33
  | TestEnclave.kTestInotifyInit1 => 34
  | TestEnclave.kTestInotifyAddWatch => 35
  | TestEnclave.kTestInotifyRmWatch => 36
  | TestEnclave.kTestSchedYield => 37
  | TestEnclave.kTestIsAtty => 38
  | TestEnclave.kTestUSleep => 39
  end%N.

Definition test_selector_value (t : TestEnclave.TestSelector)
    : Primitives.Selector :=
  (Primitives.kSelectorUser + selector_index t)%N.


(** Memory that still holds three bytes of an earlier secret, then
    zeroes. *)
Definition stale_frame : Z -> byte :=
  fun i => if (0 <=? i) && (i <? 3) then 83 else 0.

End MoreExamples.

(* ===================================================================== *)
(** * Verification *)
(* ===================================================================== *)

(** ** The selector namespace *)

Section SelectorNamespace.
Import Primitives.

Lemma reserved_or_available (s : Selector) :
  reserved_by_runtime s = negb (available_to_applications s).
Proof.
  unfold reserved_by_runtime, available_to_applications.
  destruct (N.ltb_spec s kSelectorUser), (N.leb_spec kSelectorUser s);
    simpl; auto; lia.
Qed.

Lemma host_call_range_reserved (s : Selector) :
  in_host_call_range s = true -> reserved_by_runtime s = true.
Proof.
  unfold in_host_call_range, reserved_by_runtime, host_call_range_end.
  intros H. apply andb_prop in H. tauto.
Qed.

(** C4. Selector 0 is invalid; 1, 2, 3 and 4 are init, run, donate-thread
    and fini; the host-call sub-range starts at 112 and every selector of
    it lies below the user range; a selector is available to applications
    exactly when it is at least [kSelectorUser] = 128, and reserved by the
    runtime exactly when it is below 128. *)
Theorem selector_namespace_layout :
  kSelectorAsyloInvalid = 0%N
  /\ lifecycle_selector Init = 1%N
  /\ lifecycle_selector Run = 2%N
  /\ lifecycle_selector DonateThread = 3%N
  /\ lifecycle_selector Fini = 4%N
  /\ kSelectorHostCall = 112%N
  /\ kSelectorUser = 128%N
  /\ (forall s : Selector,
        in_host_call_range s = true <-> (112 <= s < 128)%N)
  /\ (forall s : Selector,
        available_to_applications s = true <-> (128 <= s)%N)
  /\ (forall s : Selector,
        reserved_by_runtime s = true <-> (s < 128)%N)
  /\ (forall s : Selector,
        reserved_by_runtime s = negb (available_to_applications s)).
Proof.
  repeat split; try reflexivity.
  - unfold in_host_call_range, host_call_range_end, kSelectorHostCall,
      kSelectorUser in H.
    apply andb_prop in H. destruct H as [H _]. now apply N.leb_le.
  - unfold in_host_call_range, host_call_range_end, kSelectorHostCall,
      kSelectorUser in H.
    apply andb_prop in H. destruct H as [_ H]. now apply N.ltb_lt.
  - intros [H1 H2]. unfold in_host_call_range, host_call_range_end.
    apply andb_true_intro. split; [now apply N.leb_le | now apply N.ltb_lt].
  - intros H. now apply N.leb_le.
  - intros H. now apply N.leb_le.
  - intros H. now apply N.ltb_lt.
  - intros H. now apply N.ltb_lt.
  - apply reserved_or_available.
Qed.

End SelectorNamespace.

(** ** Boundary validators *)

Section BoundaryValidators.
Import Runtime.

Lemma in_regionb_spec (x : Z) (r : region) :
  in_regionb x r = true <-> in_region x r.
Proof.
  unfold in_regionb, in_region. rewrite andb_true_iff, Z.leb_le, Z.ltb_lt.
  tauto.
Qed.

Lemma find_region_some (x : Z) (rs : list region) (r : region) :
  find_region x rs = Some r -> In r rs /\ in_region x r.
Proof.
  induction rs as [|r0 rs IH]; simpl; [discriminate|].
  destruct (in_regionb x r0) eqn:E.
  - intros [= <-]. split; [now left | now apply in_regionb_spec].
  - intros H. destruct (IH H) as [Hin Hr]. split; [now right | exact Hr].
Qed.

Lemma find_region_none (x : Z) (rs : list region) :
  find_region x rs = None -> forall r, In r rs -> ~ in_region x r.
Proof.
  induction rs as [|r0 rs IH]; simpl; [tauto|].
  destruct (in_regionb x r0) eqn:E; [discriminate|].
  intros H r [<- | Hin].
  - intros Hr. apply in_regionb_spec in Hr. congruence.
  - now apply IH.
Qed.

Lemma live_mono (rs : list region) (a a' : Z) :
  a <= a' -> (live rs a' <= live rs a)%nat.
Proof.
  intros Hle. induction rs as [|r rs IH]; simpl; [lia|].
  destruct (Z.ltb_spec a' (region_end r)), (Z.ltb_spec a (region_end r));
    lia.
Qed.

Lemma live_decreases (rs : list region) (r : region) (a : Z) :
  In r rs -> in_region a r -> (live rs (region_end r) < live rs a)%nat.
Proof.
  intros Hin [Hlo Hhi].
  induction rs as [|r0 rs IH]; simpl; [destruct Hin|].
  assert (Hm := live_mono rs a (region_end r) ltac:(lia)).
  destruct Hin as [-> | Hin].
  - rewrite Z.ltb_irrefl.
    destruct (Z.ltb_spec a (region_end r)); lia.
  - specialize (IH Hin).
    destruct (Z.ltb_spec (region_end r) (region_end r0)),
             (Z.ltb_spec a (region_end r0)); lia.
Qed.

Lemma live_bound (rs : list region) (a : Z) : (live rs a <= length rs)%nat.
Proof.
  induction rs as [|r rs IH]; simpl; [lia|].
  destruct (a <? region_end r); lia.
Qed.

Lemma covers_sound (rs : list region) (fuel : nat) :
  forall a e, covers rs fuel a e = true ->
  forall x, a <= x < e -> Exists (in_region x) rs.
Proof.
  induction fuel as [|fuel IH]; intros a e; simpl;
    destruct (Z.leb_spec e a) as [Hle | Hlt]; try (intros _ x Hx; lia);
    try discriminate.
  destruct (find_region a rs) as [r|] eqn:Hf; [|discriminate].
  destruct (find_region_some _ _ _ Hf) as [Hin [Hlo Hhi]].
  intros Hc x Hx.
  destruct (Z.lt_ge_cases x (region_end r)) as [Hx' | Hx'].
  - apply List.Exists_exists. exists r. split; [exact Hin|].
    unfold in_region. lia.
  - apply (IH _ _ Hc). lia.
Qed.

Lemma covers_complete (rs : list region) (fuel : nat) :
  forall a e, (forall x, a <= x < e -> Exists (in_region x) rs) ->
  (live rs a <= fuel)%nat -> covers rs fuel a e = true.
Proof.
  induction fuel as [|fuel IH]; intros a e Hall Hfuel; simpl;
    destruct (Z.leb_spec e a) as [Hle | Hlt]; try reflexivity.
  - destruct (proj1 (List.Exists_exists _ _) (Hall a ltac:(lia)))
      as (r & Hin & Hr).
    pose proof (live_decreases rs r a Hin Hr). lia.
  - destruct (find_region a rs) as [r|] eqn:Hf.
    + destruct (find_region_some _ _ _ Hf) as [Hin Hr].
      apply IH.
      * intros x Hx. apply Hall. destruct Hr. lia.
      * pose proof (live_decreases rs r a Hin Hr). lia.
    + destruct (proj1 (List.Exists_exists _ _) (Hall a ltac:(lia)))
        as (r & Hin & Hr).
      exfalso. exact (find_region_none _ _ Hf r Hin Hr).
Qed.

Lemma disjoint_from_spec (a n : Z) (r : region) :
  disjoint_from a n r = true <->
  (forall x, a <= x < a + n -> ~ in_region x r).
Proof.
  unfold disjoint_from, in_region, region_end.
  rewrite !orb_true_iff, !Z.leb_le. split.
  - intros H x Hx Hr. lia.
  - intros H.
    destruct (Z.le_gt_cases n 0); [tauto|].
    destruct (Z.le_gt_cases (snd r) 0); [tauto|].
    destruct (Z.le_gt_cases (a + n) (fst r)); [tauto|].
    destruct (Z.le_gt_cases (fst r + snd r) a); [tauto|].
    exfalso. apply (H (Z.max a (fst r))); lia.
Qed.

(** C8. [enc_is_within_enclave] answers true exactly when every address of
    [address, address + size) belongs to a region recorded in the layout,
    and [enc_is_outside_enclave] exactly when none does.  Both are
    functions of the layout snapshot, the address and the size alone. *)
Theorem boundary_validators_correct
    (l : EnclaveMemoryLayout) (address size : Z) :
  (enc_is_within_enclave l address size = true <->
     forall x, address <= x < address + size -> in_enclave l x)
  /\ (enc_is_outside_enclave l address size = true <->
     forall x, address <= x < address + size -> ~ in_enclave l x).
Proof.
  split.
  - unfold enc_is_within_enclave, in_enclave. split.
    + apply covers_sound.
    + intros H. apply covers_complete; [exact H | apply live_bound].
  - unfold enc_is_outside_enclave, in_enclave.
    rewrite List.forallb_forall. split.
    + intros H x Hx Hex. apply List.Exists_exists in Hex.
      destruct Hex as (r & Hin & Hr).
      exact (proj1 (disjoint_from_spec _ _ r) (H r Hin) x Hx Hr).
    + intros H r Hin. apply disjoint_from_spec. intros x Hx Hr.
      apply (H x Hx). apply List.Exists_exists. now exists r.
Qed.

End BoundaryValidators.

(** ** Byte images *)

Section ByteImages.
Import Bytes.

Lemma length_encode_le (n : nat) (v : Z) : length (encode_le n v) = n.
Proof. revert v. induction n as [|n IH]; intros v; simpl; [|rewrite IH]; reflexivity. Qed.

Lemma length_encode (t : ctype) (v : Z) : length (encode t v) = sizeof t.
Proof. apply length_encode_le. Qed.

Lemma decode_encode_le (n : nat) (v : Z) :
  decode_le (encode_le n v) = v mod 2 ^ (8 * Z.of_nat n).
Proof.
  revert v. induction n as [|n IH]; intros v.
  - simpl. now rewrite Z.mod_1_r.
  - cbn [encode_le decode_le]. rewrite IH.
    replace (8 * Z.of_nat (S n)) with (8 + 8 * Z.of_nat n) by lia.
    rewrite Z.pow_add_r by lia. change (2 ^ 8) with 256.
    rewrite Z.rem_mul_r by lia. reflexivity.
Qed.

Lemma modulus_pos (t : ctype) : 0 < modulus t.
Proof. unfold modulus. apply Z.pow_pos_nonneg; lia. Qed.

Lemma wrap_mod (t : ctype) (v : Z) : wrap t (v mod modulus t) = wrap t v.
Proof.
  unfold wrap. pose proof (modulus_pos t).
  destruct (is_signed t).
  - now rewrite Zplus_mod_idemp_l.
  - now rewrite Z.mod_mod by lia.
Qed.

Lemma wrap_in_range (t : ctype) (v : Z) : in_range t v -> wrap t v = v.
Proof.
  unfold in_range, wrap. pose proof (modulus_pos t) as Hm.
  destruct (is_signed t); intros Hv.
  - assert (2 * (modulus t / 2) <= modulus t)
      by (apply Z.mul_div_le; lia).
    rewrite Z.mod_small by lia. lia.
  - now apply Z.mod_small.
Qed.

(** A value of type [t] is read back from its byte image. *)
Lemma decode_encode (t : ctype) (v : Z) :
  in_range t v -> decode t (encode t v) = v.
Proof.
  intros Hv. unfold decode, encode. rewrite decode_encode_le.
  fold (modulus t). rewrite wrap_mod. now apply wrap_in_range.
Qed.

End ByteImages.

(** ** The parameter stack *)

Section StackFacts.
Import Status Bytes ParameterStack.

Lemma with_entries_same (s : t) : with_entries s (entries s) = s.
Proof. now destruct s. Qed.

Lemma pop_push_bytes (bs : list byte) (s : t) :
  Pop (PushBytes bs s) = (inr bs, s).
Proof. destruct s. reflexivity. Qed.

Lemma push_by_copy_ok (l : Runtime.EnclaveMemoryLayout) (e : Extent)
    (s s' : t) (st : PrimitiveStatus) :
  PushByCopy l e s = (st, s') -> ok st = true -> s' = PushBytes (contents e) s.
Proof.
  unfold PushByCopy. destruct (admits l (variant s) e).
  - now intros [= <- <-] _.
  - intros [= <- <-]. discriminate.
Qed.

Lemma pop_n_push_bytes_all (vs : list (list byte)) :
  forall s, pop_n (length vs) (push_bytes_all vs s) = (inr (rev vs), s).
Proof.
  induction vs as [|v vs IH] using rev_ind; intros s; [reflexivity|].
  unfold push_bytes_all. rewrite fold_left_app, length_app, rev_unit.
  rewrite Nat.add_comm. cbn [Nat.add length fold_left pop_n].
  rewrite pop_push_bytes. fold (push_bytes_all vs s). now rewrite IH.
Qed.

Lemma push_all_ok (l : Runtime.EnclaveMemoryLayout) (es : list Extent) :
  forall s st s',
    push_all l es s = (st, s') -> ok st = true ->
    s' = push_bytes_all (map contents es) s.
Proof.
  induction es as [|e es IH]; intros s st s'; cbn [push_all map].
  - now intros [= _ <-] _.
  - destruct (PushByCopy l e s) as [st1 s1] eqn:Hp.
    destruct (ok st1) eqn:Hok.
    + intros Hrest Hst. rewrite (IH _ _ _ Hrest Hst).
      now rewrite (push_by_copy_ok _ _ _ _ _ Hp Hok).
    + intros [= <- <-] Hst. congruence.
Qed.

End StackFacts.

(** ** Running the entry handlers *)

Section HandlerFacts.
Import Status Bytes TestEnclave.

(** Unfold one handler down to the stack operations. *)
Ltac unfold_handler :=
  cbv [entry_handler run Abort TestAccess TestChmod TestClose TestFchmod
       TestGetpid TestGetPpid TestSetSid TestKill TestLink TestLseek
       TestMkdir TestOpen TestUnlink TestUmask TestGetuid TestGetgid
       TestGeteuid TestGetegid TestRename TestRead TestWrite TestSymlink
       TestReadlink TestTruncate TestFTruncate TestRmdir TestSocket
       TestFcntl TestChown TestFChown TestSetsockopt TestFlock TestFsync
       TestInotifyInit1 TestInotifyAddWatch TestInotifyRmWatch
       TestSchedYield TestIsAtty TestUSleep
       bind ret return_ stack_size Pop PopAs PushByCopyAs PushByCopyBytes
       ASYLO_RETURN_IF_INCORRECT_ARGUMENTS ASYLO_RETURN_IF_STACK_EMPTY
       BestEffortAbort enc_untrusted enc_untrusted_fill strlen
       buffer_store buffer_load set_params
       params calls frame accesses
       ParameterStack.Pop ParameterStack.PopValue ParameterStack.PushValue
       ParameterStack.PushBytes ParameterStack.size
       ParameterStack.with_entries ParameterStack.entries
       ParameterStack.variant].

(** [TestAccess] on a stack holding a path below a mode pops the mode
    first and the path second, and hands both to the host. *)
Lemma TestAccess_pops_mode_then_path (env : Env) (path : list byte)
    (mode : Z) (history : list HostCall) (m : Z -> byte)
    (log : list Access) (v : ParameterStack.Variant) :
  in_range int mode ->
  run (TestAccess env)
      {| params := ParameterStack.PushValue int mode
                     (ParameterStack.PushBytes path (ParameterStack.empty v));
         calls := history; frame := m; accesses := log |}
  = Returned OkStatus
      {| params := ParameterStack.PushValue int
                     (host_ret env history (sys_access path mode))
                     (ParameterStack.empty v);
         calls := sys_access path mode :: history;
         frame := m; accesses := log |}.
Proof.
  intros Hmode. unfold_handler. cbn [length Nat.eqb ParameterStack.empty].
  rewrite length_encode. cbn [sizeof int Nat.eqb].
  now rewrite (decode_encode int mode Hmode).
Qed.

(** Case analysis on the data-dependent tests a handler makes: the sizes
    of popped entries and the search for a NUL byte. *)
Ltac split_tests :=
  repeat match goal with
    | |- context [if Nat.eqb (length ?e) ?n then _ else _] =>
        destruct (Nat.eqb (length e) n)
    | |- context [match find_nul ?m ?o ?f with _ => _ end] =>
        destruct (find_nul m o f)
    end.

(** A handler that returns success leaves exactly its declared results. *)
Lemma handler_success_depth (env : Env) (t : TestSelector)
    (s s' : State) (st : PrimitiveStatus) :
  run (entry_handler env t) s = Returned st s' ->
  ok st = true ->
  ParameterStack.size (params s') = declared_results t.
Proof.
  destruct s as [[v es] h m log].
  destruct es as [|e1 [|e2 [|e3 [|e4 [|e5 es]]]]];
    destruct t; unfold_handler; cbn [length Nat.eqb]; split_tests;
    intros [= <- <-]; cbn; intros Hok; try discriminate Hok; reflexivity.
Qed.

(** A handler handed a number of arguments it does not accept returns
    [InvalidArgument] and touches nothing: no entry is popped, no host
    call is made, no memory is accessed. *)
Lemma handler_rejects_wrong_count (env : Env) (t : TestSelector)
    (s : State) :
  ~ In (ParameterStack.size (params s)) (accepted_argument_counts t) ->
  exists st,
    run (entry_handler env t) s = Returned st s
    /\ error_code st = InvalidArgument.
Proof.
  destruct s as [[v es] h m log].
  destruct es as [|e1 [|e2 [|e3 [|e4 [|e5 es]]]]];
    destruct t; intros Hcount;
    try (exfalso; apply Hcount; cbn; auto; fail);
    unfold_handler; cbn [length Nat.eqb];
    eexists; split; reflexivity.
Qed.

(** What [Abort] does: on an empty stack the enclave is aborted and no
    status comes back; otherwise the guard returns [InvalidArgument]. *)
Lemma Abort_outcome (s : State) :
  run Abort s =
  if Nat.eqb (ParameterStack.size (params s)) 0
  then Aborted "Aborting enclave" s
  else Returned (failure InvalidArgument) s.
Proof.
  destruct s as [[v es] h m log]. destruct es; reflexivity.
Qed.

(** No handler pops from an empty stack: the count check comes first, so
    [Underflow] never shows. *)
Lemma handler_never_underflows (env : Env) (t : TestSelector)
    (s s' : State) (st : PrimitiveStatus) :
  run (entry_handler env t) s = Returned st s' ->
  error_code st <> Underflow.
Proof.
  destruct s as [[v es] h m log].
  destruct es as [|e1 [|e2 [|e3 [|e4 [|e5 es]]]]];
    destruct t; unfold_handler; cbn [length Nat.eqb]; split_tests;
    intros [= <- <-]; cbn; discriminate.
Qed.

End HandlerFacts.

(** ** Claims on the parameter stack and the handlers *)

Section HandlerClaims.
Import Status Bytes TestEnclave.

(** C1. Extents pushed with [PushByCopy] come off in reverse order, byte
    for byte, and the stack is back where it started; the same holds for
    the typed pushes.  [TestAccess], handed a stack on which the path was
    pushed first and the mode second, pops the mode first and the path
    second: the host is asked [access(path, mode)]. *)
Theorem parameter_stack_lifo_round_trip
    (l : Runtime.EnclaveMemoryLayout) (vs : list ParameterStack.Extent)
    (s s' : ParameterStack.t) (st : PrimitiveStatus)
    (bufs : list (list byte))
    (env : Env) (path : list byte) (mode : Z)
    (history : list HostCall) (m : Z -> byte) (log : list Access) :
  ParameterStack.push_all l vs s = (st, s') ->
  ok st = true ->
  in_range int mode ->
  ParameterStack.pop_n (length vs) s'
    = (inr (rev (map ParameterStack.contents vs)), s)
  /\ ParameterStack.pop_n (length bufs)
       (ParameterStack.push_bytes_all bufs s) = (inr (rev bufs), s)
  /\ run (TestAccess env)
       {| params := ParameterStack.push_bytes_all [path; encode int mode]
                      (ParameterStack.empty ParameterStack.Trusted);
          calls := history; frame := m; accesses := log |}
     = Returned OkStatus
         {| params := ParameterStack.PushValue int
                        (host_ret env history (sys_access path mode))
                        (ParameterStack.empty ParameterStack.Trusted);
            calls := sys_access path mode :: history;
            frame := m; accesses := log |}.
Proof.
  intros Hpush Hok Hmode. split; [|split].
  - rewrite (push_all_ok _ _ _ _ _ Hpush Hok).
    rewrite <- (length_map ParameterStack.contents vs).
    apply pop_n_push_bytes_all.
  - apply pop_n_push_bytes_all.
  - now apply TestAccess_pops_mode_then_path.
Qed.

Lemma parameter_stack_lifo_round_trip_witness :
  ParameterStack.pop_n 2
    {| ParameterStack.variant := ParameterStack.Native;
       ParameterStack.entries := [[4; 5]; [1; 2; 3]] |}
    = (inr [[4; 5]; [1; 2; 3]],
       ParameterStack.empty ParameterStack.Native)
  /\ ParameterStack.pop_n 1
       (ParameterStack.push_bytes_all [[9]]
          (ParameterStack.empty ParameterStack.Native))
     = (inr [[9]], ParameterStack.empty ParameterStack.Native)
  /\ run (TestAccess Examples.quiet_env)
       {| params := ParameterStack.push_bytes_all
                      [Examples.c_str "illegal_path"; encode int 6]
                      (ParameterStack.empty ParameterStack.Trusted);
          calls := []; frame := Examples.zero_frame; accesses := [] |}
     = Returned OkStatus
         {| params := ParameterStack.PushValue int
                        (host_ret Examples.quiet_env []
                           (sys_access (Examples.c_str "illegal_path") 6))
                        (ParameterStack.empty ParameterStack.Trusted);
            calls := [sys_access (Examples.c_str "illegal_path") 6];
            frame := Examples.zero_frame; accesses := [] |}.
Proof.
  apply (parameter_stack_lifo_round_trip
           Examples.small_layout Examples.host_extents
           (ParameterStack.empty ParameterStack.Native)
           {| ParameterStack.variant := ParameterStack.Native;
              ParameterStack.entries := [[4; 5]; [1; 2; 3]] |}
           OkStatus [[9]] Examples.quiet_env
           (Examples.c_str "illegal_path") 6 [] Examples.zero_frame []).
  - reflexivity.
  - reflexivity.
  - vm_compute. split; [discriminate | reflexivity].
Defined.

Lemma lookup_handler_bound {H : Type} (r : gmap N H) (sel : N) (h : H) :
  r !! sel = Some h -> Registry.lookup_handler sel r = inr h.
Proof.
  intros Hr. unfold Registry.lookup_handler, Primitives.Selector in *.
  now rewrite Hr.
Qed.

(** C5 (as amended). A call of the selector bound to [Abort] on a loaded
    client ends in a best-effort abort, and returns no status, exactly
    when the handler's stack guard lets the call through (an empty stack);
    a call the guard rejects returns [InvalidArgument] with the stack
    untouched. *)
Theorem abort_selector_outcome
    (history : list HostCall) (garbage : Z -> byte) (c : Client.t)
    (sel : Primitives.Selector) (stack : ParameterStack.t) :
  Client.IsClosed c = false ->
  Client.entry_table (Client.enclave c) !! sel = Some Abort ->
  Client.EnclaveCall history garbage c sel stack =
  if Nat.eqb (ParameterStack.size stack) 0
  then Client.EnclaveAborted "Aborting enclave"
  else Client.CallReturned (failure InvalidArgument) stack.
Proof.
  intros Hopen Hbound. unfold Client.EnclaveCall.
  rewrite Hopen, (lookup_handler_bound _ _ _ Hbound), Abort_outcome.
  destruct stack as [v es]. destruct es; reflexivity.
Qed.

Lemma abort_selector_outcome_witness :
  Client.EnclaveCall [] Examples.zero_frame Examples.abort_client 128%N
    (ParameterStack.empty ParameterStack.Native)
  = Client.EnclaveAborted "Aborting enclave".
Proof.
  apply (abort_selector_outcome [] Examples.zero_frame
           Examples.abort_client 128%N
           (ParameterStack.empty ParameterStack.Native)).
  - reflexivity.
  - reflexivity.
Defined.

(** C5 as stated fails: called with one entry on the stack, the [Abort]
    entry point returns an ordinary status to its caller. *)
Lemma abort_selector_returns_status :
  Client.EnclaveCall [] Examples.zero_frame Examples.abort_client 128%N
    Examples.one_entry_stack
  = Client.CallReturned (failure InvalidArgument) Examples.one_entry_stack.
Proof. reflexivity. Qed.

(** C6. A handler handed a number of arguments it does not accept (fewer
    than it would pop, in particular) returns [InvalidArgument] and leaves
    the stack, the host and its memory untouched; no handler run ends in
    [Underflow], because the count is checked before the first pop; and a
    pop on an empty stack fails with [Underflow] without changing it. *)
Theorem wrong_argument_count_rejected
    (env : Env) (t : TestSelector) (s : State) :
  ~ In (ParameterStack.size (params s)) (accepted_argument_counts t) ->
  (exists st,
      run (entry_handler env t) s = Returned st s
      /\ error_code st = InvalidArgument)
  /\ (forall s1 st1 s1',
        run (entry_handler env t) s1 = Returned st1 s1' ->
        error_code st1 <> Underflow)
  /\ (forall v,
        ParameterStack.Pop (ParameterStack.empty v)
        = (inl (failure Underflow), ParameterStack.empty v)).
Proof.
  intros Hcount. split; [|split].
  - now apply handler_rejects_wrong_count.
  - intros s1 st1 s1'. apply handler_never_underflows.
  - reflexivity.
Qed.

Lemma wrong_argument_count_rejected_witness :
  exists st,
    run (TestOpen Examples.quiet_env)
        (Client.entry_state [] Examples.zero_frame Examples.one_entry_stack)
    = Returned st
        (Client.entry_state [] Examples.zero_frame Examples.one_entry_stack)
    /\ error_code st = InvalidArgument.
Proof.
  apply (wrong_argument_count_rejected Examples.quiet_env kTestOpen
           (Client.entry_state [] Examples.zero_frame
              Examples.one_entry_stack)).
  cbn. intros [H | [H | H]]; [discriminate H | discriminate H | exact H].
Defined.

(** C7. When a call through [EnclaveCall] returns success, the caller's
    stack holds exactly the results the invoked handler declares. *)
Theorem enclave_call_result_depth
    (env : Env) (t : TestSelector)
    (history : list HostCall) (garbage : Z -> byte) (c : Client.t)
    (sel : Primitives.Selector) (stack stack' : ParameterStack.t)
    (st : PrimitiveStatus) :
  Client.entry_table (Client.enclave c) !! sel = Some (entry_handler env t) ->
  Client.EnclaveCall history garbage c sel stack
    = Client.CallReturned st stack' ->
  ok st = true ->
  ParameterStack.size stack' = declared_results t.
Proof.
  intros Hbound. unfold Client.EnclaveCall.
  destruct (Client.IsClosed c).
  - intros [= <- <-]. discriminate.
  - rewrite (lookup_handler_bound _ _ _ Hbound).
    destruct (run _ _) as [st1 s1 | |] eqn:Hrun; try discriminate.
    intros [= <- <-] Hok.
    apply (handler_success_depth _ _ _ _ _ Hrun Hok).
Qed.

Lemma enclave_call_result_depth_witness :
  ParameterStack.size
    (ParameterStack.PushValue int 0
       (ParameterStack.empty ParameterStack.Native))
  = declared_results kTestAccess.
Proof.
  apply (enclave_call_result_depth Examples.quiet_env kTestAccess
           [] Examples.zero_frame Examples.access_client 129%N
           Examples.access_request
           (ParameterStack.PushValue int 0
              (ParameterStack.empty ParameterStack.Native))
           OkStatus).
  - reflexivity.
  - vm_compute. reflexivity.
  - reflexivity.
Defined.

(** C10 fails on the code.  On the request of [HostCallTest.TestRead] (a
    count of 27) the host's 27 bytes are stored into the 20-byte
    [read_buf], and 27 bytes are read back from it: the accesses leave the
    buffer. *)
Lemma TestRead_overflows_read_buf :
  let o := run (TestRead Examples.reading_env)
               (Client.entry_state [] Examples.zero_frame
                  (Examples.read_request 3)) in
  accesses (outcome_state o) = [Load 0 27; Load 0 27; Store 0 27]
  /\ forallb (within_bounds read_buf_size) (accesses (outcome_state o))
     = false
  /\ ParameterStack.size (params (outcome_state o)) = 2%nat
  /\ exists s', o = Returned OkStatus s'.
Proof.
  vm_compute. repeat split. eexists. reflexivity.
Qed.

(** With a count of 5 the same handler stays inside [read_buf]. *)
Example TestRead_short_read_in_bounds :
  let o := run (TestRead Examples.reading_env)
               (Client.entry_state [] Examples.zero_frame
                  (ParameterStack.PushValue size_t 5
                     (ParameterStack.PushValue int 3
                        (ParameterStack.empty ParameterStack.Native)))) in
  accesses (outcome_state o) = [Load 0 6; Load 0 6; Store 0 5]
  /\ forallb (within_bounds read_buf_size) (accesses (outcome_state o)) = true
  /\ ParameterStack.entries (params (outcome_state o))
     = [[116; 104; 105; 115; 32; 0]; encode ssize_t 5].
Proof. vm_compute. repeat split. Qed.

(** [open()] with three arguments: the mode is popped first, then the
    flags, then the path. *)
Example TestOpen_three_arguments :
  run (TestOpen Examples.quiet_env)
      {| params := ParameterStack.push_bytes_all
                     [Examples.c_str "f"; encode int 66; encode mode_t 384]
                     (ParameterStack.empty ParameterStack.Trusted);
         calls := []; frame := Examples.zero_frame; accesses := [] |}
  = Returned OkStatus
      {| params := ParameterStack.PushValue int 0
                     (ParameterStack.empty ParameterStack.Trusted);
         calls := [sys_open (Examples.c_str "f") 66 (Some 384)];
         frame := Examples.zero_frame; accesses := [] |}.
Proof. reflexivity. Qed.

End HandlerClaims.

(** ** The client *)

Section ClientClaims.
Import Status TestEnclave Client.

Lemma IsClosed_Destroy (c : Client.t) : IsClosed (Destroy c) = true.
Proof.
  unfold Destroy, IsClosed.
  destruct (lifecycle_state c) eqn:E; cbn; [reflexivity | now rewrite E].
Qed.

Lemma Destroy_closed (c : Client.t) : IsClosed c = true -> Destroy c = c.
Proof.
  unfold Destroy, IsClosed. now destruct (lifecycle_state c).
Qed.

Lemma Destroy_idempotent (c : Client.t) : Destroy (Destroy c) = Destroy c.
Proof. apply Destroy_closed, IsClosed_Destroy. Qed.

Lemma destroy_times_positive (n : nat) (c : Client.t) :
  destroy_times (S n) c = Destroy c.
Proof.
  induction n as [|n IH]; [reflexivity|].
  change (destroy_times (S (S n)) c) with (Destroy (destroy_times (S n) c)).
  rewrite IH. apply Destroy_idempotent.
Qed.

(** C2. After one or more calls of [Destroy] the client is closed:
    [IsClosed] answers true, every [EnclaveCall] fails with [Closed] and
    hands the stack back as it was, and a further [Destroy] changes
    nothing. *)
Theorem destroyed_client_stays_closed
    (n : nat) (c : Client.t)
    (history : list HostCall) (garbage : Z -> Bytes.byte)
    (sel : Primitives.Selector) (stack : ParameterStack.t) :
  (1 <= n)%nat ->
  IsClosed (destroy_times n c) = true
  /\ EnclaveCall history garbage (destroy_times n c) sel stack
     = CallReturned (failure Closed) stack
  /\ Destroy (destroy_times n c) = destroy_times n c
  /\ destroy_times n c = Destroy c.
Proof.
  intros Hn. destruct n as [|n]; [lia|].
  rewrite destroy_times_positive.
  repeat split.
  - apply IsClosed_Destroy.
  - unfold EnclaveCall. now rewrite IsClosed_Destroy.
  - apply Destroy_idempotent.
Qed.

Lemma destroyed_client_stays_closed_witness :
  IsClosed (destroy_times 2 Examples.access_client) = true
  /\ EnclaveCall [] Examples.zero_frame
       (destroy_times 2 Examples.access_client) 129%N
       Examples.access_request
     = CallReturned (failure Closed) Examples.access_request
  /\ Destroy (destroy_times 2 Examples.access_client)
     = destroy_times 2 Examples.access_client
  /\ destroy_times 2 Examples.access_client
     = Destroy Examples.access_client.
Proof.
  apply (destroyed_client_stays_closed 2 Examples.access_client
           [] Examples.zero_frame 129%N Examples.access_request).
  lia.
Defined.

End ClientClaims.

(** ** The registries *)

Section RegistryClaims.
Import Status Primitives Registry.
Context {H : Type}.

Lemma register_unbound_permitted (who : Registrant) (s : Selector) (h : H)
    (r : gmap N H) :
  r !! s = None -> permitted who s = true ->
  register who s h r = (OkStatus, <[s := h]> r).
Proof.
  intros Hr Hp. unfold register, Selector in *. now rewrite Hr, Hp.
Qed.

Lemma register_bound (who : Registrant) (s : Selector) (h h0 : H)
    (r : gmap N H) :
  r !! s = Some h0 -> register who s h r = (failure AlreadyRegistered, r).
Proof.
  intros Hr. unfold register, Selector in *. now rewrite Hr.
Qed.

Lemma register_unbound_reserved (who : Registrant) (s : Selector) (h : H)
    (r : gmap N H) :
  r !! s = None -> permitted who s = false ->
  register who s h r = (failure ReservedSelector, r).
Proof.
  intros Hr Hp. unfold register, Selector in *. now rewrite Hr, Hp.
Qed.

(** C3 (as amended). On either registry, registering an unbound selector
    that the registrant may use succeeds and binds the handler; every
    later registration of that selector, by any registrant and with any
    handler, fails with [AlreadyRegistered] and leaves the registry as it
    was, so the first handler stays bound and is the one dispatched. *)
Theorem registration_is_exclusive
    (who who' : Registrant) (s : Selector) (h h' : H) (r : gmap N H) :
  r !! s = None ->
  permitted who s = true ->
  register who s h r = (OkStatus, <[s := h]> r)
  /\ register who' s h' (<[s := h]> r)
     = (failure AlreadyRegistered, <[s := h]> r)
  /\ lookup_handler s (<[s := h]> r) = inr h.
Proof.
  intros Hr Hp.
  assert (Hb : (<[s := h]> r : gmap N H) !! s = Some h)
    by apply lookup_insert_eq.
  split; [|split].
  - now apply register_unbound_permitted.
  - now apply (register_bound who' s h' h).
  - unfold lookup_handler, Selector in *. now rewrite Hb.
Qed.

(** Registering a list of fresh, permitted and pairwise distinct selectors
    succeeds and binds each of them. *)
Lemma register_all_fresh (who : Registrant) (hs : list (Selector * H)) :
  forall r : gmap N H,
    List.NoDup (map fst hs) ->
    (forall s, In s (map fst hs) -> permitted who s = true /\ r !! s = None) ->
    exists r' : gmap N H,
      register_all who hs r = (OkStatus, r')
      /\ (forall s h, In (s, h) hs -> r' !! s = Some h)
      /\ (forall s, ~ In s (map fst hs) -> r' !! s = r !! s).
Proof.
  induction hs as [|[s h] hs IH]; intros r Hnd Hall.
  - exists r. cbn. split; [reflexivity|]. split; [intros s h []|reflexivity].
  - cbn [map fst] in Hnd, Hall. apply List.NoDup_cons_iff in Hnd.
    destruct Hnd as [Hfresh Hnd].
    destruct (Hall s (or_introl eq_refl)) as [Hperm Hunbound].
    cbn [register_all].
    rewrite (register_unbound_permitted who s h r Hunbound Hperm).
    cbn [ok error_code OkStatus].
    destruct (IH (<[s := h]> r) Hnd) as (r' & Hreg & Hbound & Hother).
    { intros s' Hs'. destruct (Hall s' (or_intror Hs')) as [Hp Hu].
      split; [exact Hp|].
      rewrite lookup_insert_ne; [exact Hu|]. intros ->. contradiction. }
    exists r'. split; [exact Hreg|]. split.
    + intros s0 h0 [[= <- <-] | Hin]; [|now apply Hbound].
      rewrite (Hother s Hfresh). apply lookup_insert_eq.
    + intros s0 Hs0. cbn [map fst In] in Hs0.
      rewrite Hother by tauto. apply lookup_insert_ne. tauto.
Qed.

End RegistryClaims.

Section RegistryExamples.
Import Status Primitives Registry.

Lemma registration_is_exclusive_witness :
  register Application 128%N 1%nat (∅ : gmap N nat)
    = (OkStatus, <[128%N := 1%nat]> (∅ : gmap N nat))
  /\ register HostCallSubsystem 128%N 2%nat
       (<[128%N := 1%nat]> (∅ : gmap N nat))
     = (failure AlreadyRegistered, <[128%N := 1%nat]> (∅ : gmap N nat))
  /\ lookup_handler 128%N (<[128%N := 1%nat]> (∅ : gmap N nat)) = inr 1%nat.
Proof.
  apply (registration_is_exclusive Application HostCallSubsystem
           128%N 1%nat 2%nat (∅ : gmap N nat)).
  - reflexivity.
  - reflexivity.
Defined.

(** C3 as stated fails: the first registration of selector 2 by
    application code, on an empty registry, does not succeed. *)
Lemma first_registration_of_reserved_selector_fails :
  (∅ : gmap N nat) !! kSelectorAsyloRun = None
  /\ register Application kSelectorAsyloRun 1%nat (∅ : gmap N nat)
     = (failure ReservedSelector, ∅).
Proof. split; reflexivity. Qed.

(** The registration of [hello_driver.cc], made twice: the second attempt
    is refused and the handler of the first stays in place. *)
Example register_hello_twice :
  let first := HelloDriver.register_hello Examples.small_layout 100 129%N
                 Examples.access_client in
  let second := HelloDriver.register_hello Examples.small_layout 200 129%N
                  (snd first) in
  ok (fst first) = true
  /\ error_code (fst second) = AlreadyRegistered
  /\ Client.exit_call_provider (snd second)
     = Client.exit_call_provider (snd first).
Proof. repeat split. Qed.

End RegistryExamples.

(** ** Initialisation of the test enclave *)

Section EnclaveInit.
Import Status Primitives TestEnclave.

Lemma registration_order_complete (t : TestSelector) :
  In t registration_order.
Proof.
  destruct t; unfold registration_order;
    repeat (first [left; reflexivity | right]).
Qed.

Lemma registration_order_NoDup : List.NoDup registration_order.
Proof.
  unfold registration_order.
  repeat (apply List.NoDup_cons;
          [cbn [In]; intuition discriminate|]).
  apply List.NoDup_nil.
Qed.

(** With pairwise distinct selector values in the application range,
    [asylo_enclave_init] on an empty table succeeds and binds every handler
    under its selector. *)
Lemma asylo_enclave_init_binds (env : Env)
    (selector_value : TestSelector -> Selector) :
  (forall t, available_to_applications (selector_value t) = true) ->
  (forall t t', selector_value t = selector_value t' -> t = t') ->
  exists table : gmap N Handler,
    asylo_enclave_init env selector_value ∅ = (OkStatus, table)
    /\ forall t, table !! selector_value t = Some (entry_handler env t).
Proof.
  intros Huser Hinj. unfold asylo_enclave_init.
  destruct (register_all_fresh Registry.Application
              (map (fun t => (selector_value t, entry_handler env t))
                   registration_order) ∅)
    as (table & Hreg & Hbound & _).
  - rewrite map_map. cbn [fst].
    apply Finite.Injective_map_NoDup; [exact Hinj|].
    apply registration_order_NoDup.
  - intros s Hs. rewrite map_map in Hs. cbn [fst] in Hs.
    apply in_map_iff in Hs. destruct Hs as (t & <- & _).
    split; [apply Huser | apply lookup_empty].
  - exists table. split; [exact Hreg|]. intros t. apply Hbound.
    apply in_map_iff. exists t. split; [reflexivity|].
    apply registration_order_complete.
Qed.

End EnclaveInit.

(** ** Vectored I/O *)

Section NativePathsClaims.
Import NativePaths.

(** C9. With [iovcnt <= 0], [Writev] and [Readv] return -1 and set
    [errno] to [EINVAL]; nothing is allocated and the host is not
    called. *)
Theorem vectored_io_rejects_nonpositive_count
    (env : Env) (host_fd : Z) (iov : list iovec) (iovcnt : Z) (w : World) :
  iovcnt <= 0 ->
  Writev env host_fd iov iovcnt w
    = (-1, {| errno := EINVAL; events := events w |})
  /\ Readv env host_fd iov iovcnt w
     = (-1, {| errno := EINVAL; events := events w |}).
Proof.
  intros Hcnt. unfold Writev, Readv.
  destruct (Z.leb_spec iovcnt 0); [split; reflexivity | lia].
Qed.

Lemma vectored_io_rejects_nonpositive_count_witness :
  Writev Examples.pool_env 3 Examples.two_buffers (-1) Examples.fresh_world
    = (-1, {| errno := EINVAL; events := [] |})
  /\ Readv Examples.pool_env 3 Examples.two_buffers (-1) Examples.fresh_world
     = (-1, {| errno := EINVAL; events := [] |}).
Proof.
  apply (vectored_io_rejects_nonpositive_count Examples.pool_env 3
           Examples.two_buffers (-1) Examples.fresh_world).
  lia.
Defined.

(** With a positive count the buffer is allocated and the host called. *)
Example Writev_two_buffers :
  Writev Examples.pool_env 3 Examples.two_buffers 2 Examples.fresh_world
  = (3, {| errno := 0;
           events := [HostWritev 3 [104; 105; 33] 3; Malloc 3] |}).
Proof. reflexivity. Qed.

End NativePathsClaims.


(** ** More on vectored I/O *)

Section VectoredIO.
Import Bytes NativePaths HandlerTables.

Lemma map_nth_seq_id {A : Type} (d : A) (l : list A) :
  map (fun i => nth i l d) (seq 0 (length l)) = l.
Proof.
  induction l as [|a l IH]; [reflexivity|].
  cbn [length seq map nth]. f_equal.
  rewrite <- seq_shift, map_map. exact IH.
Qed.

Lemma fold_left_through_map {A B C : Type} (f : A -> C -> A) (g : B -> C)
    (l : list B) :
  forall a, fold_left (fun acc x => f acc (g x)) l a = fold_left f (map g l) a.
Proof. induction l as [|x l IH]; intros a; [reflexivity | apply IH]. Qed.

Lemma sum_iov_len_nonneg (iov : list iovec) :
  Forall (fun v => 0 <= iov_len v) iov -> 0 <= sum_iov_len iov.
Proof.
  induction 1 as [|v iov Hv _ IH]; cbn [sum_iov_len fold_right]; [lia|].
  fold (sum_iov_len iov). lia.
Qed.

Lemma wrapped_sum_exact (iov : list iovec) :
  Forall (fun v => 0 <= iov_len v) iov ->
  forall a, 0 <= a -> a + sum_iov_len iov < 2 ^ 64 ->
  fold_left (fun acc v => wrap size_t (acc + iov_len v)) iov a
  = a + sum_iov_len iov.
Proof.
  induction 1 as [|v iov Hv Hrest IH]; intros a Ha Hsum;
    cbn [sum_iov_len fold_right fold_left] in *; [lia|].
  fold (sum_iov_len iov) in *.
  pose proof (sum_iov_len_nonneg iov Hrest).
  rewrite wrap_in_range.
  - rewrite IH by lia. lia.
  - unfold in_range, modulus. cbn [is_signed size_t sizeof].
    change (2 ^ (8 * Z.of_nat 8)) with (2 ^ 64). lia.
Qed.

(** Without overflow, the loop of [CreateUntrustedBuffer] adds up the
    lengths. *)
Lemma total_size_is_sum (iov : list iovec) :
  Forall (fun v => 0 <= iov_len v) iov ->
  sum_iov_len iov < 2 ^ 64 ->
  total_size iov (Z.of_nat (length iov)) = sum_iov_len iov.
Proof.
  intros Hpos Hsum. unfold total_size. rewrite Nat2Z.id.
  rewrite (fold_left_through_map
             (fun acc v => wrap size_t (acc + iov_len v)) (iov_at iov)).
  unfold iov_at. rewrite map_nth_seq_id.
  now rewrite wrapped_sum_exact by (auto; lia).
Qed.

Lemma iovec_exact_nonneg (iov : list iovec) :
  Forall iovec_exact iov -> Forall (fun v => 0 <= iov_len v) iov.
Proof.
  apply List.Forall_impl. intros v Hv. unfold iovec_exact in Hv. lia.
Qed.

Lemma length_concat_iov (iov : list iovec) :
  Forall iovec_exact iov ->
  Z.of_nat (length (concat (map iov_base iov))) = sum_iov_len iov.
Proof.
  induction 1 as [|v iov Hv _ IH];
    cbn [map concat sum_iov_len fold_right]; [reflexivity|].
  fold (sum_iov_len iov). rewrite length_app, Nat2Z.inj_add, IH.
  unfold iovec_exact in Hv. lia.
Qed.

Lemma serialized_bytes (iov : list iovec) :
  Forall iovec_exact iov ->
  flat_map (fun i => firstn (Z.to_nat (iov_len (iov_at iov i)))
                            (iov_base (iov_at iov i)))
           (seq 0 (length iov))
  = concat (map iov_base iov).
Proof.
  intros Hex. rewrite flat_map_concat_map. f_equal.
  rewrite <- (map_map (iov_at iov)
                (fun v => firstn (Z.to_nat (iov_len v)) (iov_base v))).
  unfold iov_at at 1. rewrite map_nth_seq_id.
  induction Hex as [|v iov Hv _ IH]; cbn [map]; [reflexivity|].
  rewrite IH. f_equal. unfold iovec_exact in Hv.
  rewrite Hv, Nat2Z.id. apply firstn_all.
Qed.

(** X1. With a positive count, when the buffer pool cannot serve the
    request both [Writev] and [Readv] return -1 after the one allocation
    attempt: the host is not called and [errno] is left as it was. *)
Theorem vectored_io_allocation_failure
    (env : Env) (host_fd : Z) (iov : list iovec) (iovcnt : Z) (w : World) :
  0 < iovcnt ->
  malloc_succeeds env (events w) (total_size iov iovcnt) = false ->
  Writev env host_fd iov iovcnt w
    = (-1, {| errno := errno w;
              events := Malloc (total_size iov iovcnt) :: events w |})
  /\ Readv env host_fd iov iovcnt w
     = (-1, {| errno := errno w;
               events := Malloc (total_size iov iovcnt) :: events w |}).
Proof.
  intros Hcnt Hfail.
  unfold Writev, Readv, SerializeIov, CreateUntrustedBuffer, record.
  destruct (Z.leb_spec iovcnt 0); [lia|].
  rewrite Hfail. split; reflexivity.
Qed.

Lemma vectored_io_allocation_failure_witness :
  Writev MoreExamples.exhausted_env 3 Examples.two_buffers 2
         Examples.fresh_world
    = (-1, {| errno := 0; events := [Malloc 3] |})
  /\ Readv MoreExamples.exhausted_env 3 Examples.two_buffers 2
           Examples.fresh_world
     = (-1, {| errno := 0; events := [Malloc 3] |}).
Proof.
  apply (vectored_io_allocation_failure MoreExamples.exhausted_env 3
           Examples.two_buffers 2 Examples.fresh_world).
  - lia.
  - reflexivity.
Defined.

(** X2. [Writev] on an array of buffers whose lengths add up to less than
    2^31 allocates that many bytes and hands the host the bytes of the
    buffers one after the other, in order, with the size equal to the
    length of what is sent; [errno] is left as it was. *)
Theorem Writev_sends_concatenation
    (env : Env) (host_fd : Z) (iov : list iovec) (w : World) :
  iov <> [] ->
  Forall iovec_exact iov ->
  sum_iov_len iov < 2 ^ 31 ->
  malloc_succeeds env (events w) (sum_iov_len iov) = true ->
  let payload := concat (map iov_base iov) in
  let call := HostWritev host_fd payload (sum_iov_len iov) in
  Writev env host_fd iov (Z.of_nat (length iov)) w
    = (host_result env (Malloc (sum_iov_len iov) :: events w) call,
       {| errno := errno w;
          events := call :: Malloc (sum_iov_len iov) :: events w |})
  /\ Z.of_nat (length payload) = sum_iov_len iov.
Proof.
  intros Hne Hex Hsum Hmalloc payload call.
  pose proof (iovec_exact_nonneg iov Hex) as Hpos.
  pose proof (sum_iov_len_nonneg iov Hpos) as Hsum0.
  split; [|now apply length_concat_iov].
  unfold Writev, SerializeIov, CreateUntrustedBuffer, record.
  destruct (Z.leb_spec (Z.of_nat (length iov)) 0) as [Hlen | _].
  { destruct iov; [congruence | cbn [length] in Hlen; lia]. }
  rewrite total_size_is_sum by (auto; lia). rewrite Hmalloc.
  rewrite Nat2Z.id, serialized_bytes by exact Hex.
  rewrite wrap_in_range; [reflexivity|].
  unfold in_range, modulus. cbn [is_signed int sizeof].
  change (2 ^ (8 * Z.of_nat 4) / 2) with (2 ^ 31). lia.
Qed.

Lemma Writev_sends_concatenation_witness :
  Writev Examples.pool_env 3 Examples.two_buffers 2 Examples.fresh_world
    = (3, {| errno := 0;
             events := [HostWritev 3 [104; 105; 33] 3; Malloc 3] |})
  /\ Z.of_nat (length [104; 105; 33]) = 3.
Proof.
  apply (Writev_sends_concatenation Examples.pool_env 3
           Examples.two_buffers Examples.fresh_world).
  - discriminate.
  - repeat constructor.
  - reflexivity.
  - reflexivity.
Defined.

(** X3. [Readv] on an array of [iovcnt] buffers whose lengths add up to
    less than 2^31 asks the pool for exactly that many bytes and passes the
    count and that size to the host. *)
Theorem Readv_requests_total
    (env : Env) (host_fd : Z) (iov : list iovec) (w : World) :
  iov <> [] ->
  Forall (fun v => 0 <= iov_len v) iov ->
  sum_iov_len iov < 2 ^ 31 ->
  malloc_succeeds env (events w) (sum_iov_len iov) = true ->
  let call :=
    HostReadv host_fd (Z.of_nat (length iov)) (sum_iov_len iov) in
  Readv env host_fd iov (Z.of_nat (length iov)) w
    = (host_result env (Malloc (sum_iov_len iov) :: events w) call,
       {| errno := errno w;
          events := call :: Malloc (sum_iov_len iov) :: events w |}).
Proof.
  intros Hne Hpos Hsum Hmalloc call.
  pose proof (sum_iov_len_nonneg iov Hpos) as Hsum0.
  unfold Readv, CreateUntrustedBuffer, record.
  destruct (Z.leb_spec (Z.of_nat (length iov)) 0) as [Hlen | _].
  { destruct iov; [congruence | cbn [length] in Hlen; lia]. }
  rewrite total_size_is_sum by (auto; lia). rewrite Hmalloc.
  rewrite wrap_in_range; [reflexivity|].
  unfold in_range, modulus. cbn [is_signed int sizeof].
  change (2 ^ (8 * Z.of_nat 4) / 2) with (2 ^ 31). lia.
Qed.

Lemma Readv_requests_total_witness :
  Readv Examples.pool_env 3 Examples.two_buffers 2 Examples.fresh_world
    = (3, {| errno := 0; events := [HostReadv 3 2 3; Malloc 3] |}).
Proof.
  apply (Readv_requests_total Examples.pool_env 3
           Examples.two_buffers Examples.fresh_world).
  - discriminate.
  - repeat constructor; cbn; lia.
  - reflexivity.
  - reflexivity.
Defined.

(** X4. [CreateUntrustedBuffer] hands the size back through an [int]: when
    the lengths add up to 2^31 or more (and less than 2^32) the allocation
    is made for the full total but the size reported is the total minus
    2^32, a negative number. *)
Theorem CreateUntrustedBuffer_size_wraps
    (env : Env) (iov : list iovec) (w : World) :
  Forall (fun v => 0 <= iov_len v) iov ->
  2 ^ 31 <= sum_iov_len iov < 2 ^ 32 ->
  malloc_succeeds env (events w) (sum_iov_len iov) = true ->
  CreateUntrustedBuffer env iov (Z.of_nat (length iov)) w
    = (Some (sum_iov_len iov - 2 ^ 32),
       {| errno := errno w;
          events := Malloc (sum_iov_len iov) :: events w |})
  /\ sum_iov_len iov - 2 ^ 32 < 0.
Proof.
  intros Hpos Hsum Hmalloc. split; [|lia].
  unfold CreateUntrustedBuffer, record.
  rewrite total_size_is_sum by (auto; lia). rewrite Hmalloc.
  do 2 f_equal. unfold wrap, modulus. cbn [is_signed int sizeof].
  change (2 ^ (8 * Z.of_nat 4)) with (2 ^ 32).
  change (2 ^ 32 / 2) with (2 ^ 31).
  replace (sum_iov_len iov + 2 ^ 31)
    with (sum_iov_len iov - 2 ^ 31 + 1 * 2 ^ 32) by lia.
  rewrite Z.mod_add by lia. rewrite Z.mod_small by lia. lia.
Qed.

Lemma CreateUntrustedBuffer_size_wraps_witness :
  CreateUntrustedBuffer Examples.pool_env MoreExamples.huge_buffer 1
    Examples.fresh_world
    = (Some (- 2 ^ 31), {| errno := 0; events := [Malloc (2 ^ 31)] |})
  /\ 2 ^ 31 - 2 ^ 32 < 0.
Proof.
  apply (CreateUntrustedBuffer_size_wraps Examples.pool_env
           MoreExamples.huge_buffer Examples.fresh_world).
  - repeat constructor; cbn; lia.
  - cbn; lia.
  - reflexivity.
Defined.

End VectoredIO.


(** ** Opening a path and the message calls *)

Section IOContextFacts.
Import IOContext.





End IOContextFacts.


(** ** More on the entry handlers *)

Ltac unfold_entry_handler :=
  cbv [TestEnclave.entry_handler TestEnclave.run TestEnclave.Abort
       TestEnclave.TestAccess TestEnclave.TestChmod TestEnclave.TestClose
       TestEnclave.TestFchmod TestEnclave.TestGetpid TestEnclave.TestGetPpid
       TestEnclave.TestSetSid TestEnclave.TestKill TestEnclave.TestLink
       TestEnclave.TestLseek TestEnclave.TestMkdir TestEnclave.TestOpen
       TestEnclave.TestUnlink TestEnclave.TestUmask TestEnclave.TestGetuid
       TestEnclave.TestGetgid TestEnclave.TestGeteuid TestEnclave.TestGetegid
       TestEnclave.TestRename TestEnclave.TestRead TestEnclave.TestWrite
       TestEnclave.TestSymlink TestEnclave.TestReadlink
       TestEnclave.TestTruncate TestEnclave.TestFTruncate
       TestEnclave.TestRmdir TestEnclave.TestSocket TestEnclave.TestFcntl
       TestEnclave.TestChown TestEnclave.TestFChown
       TestEnclave.TestSetsockopt TestEnclave.TestFlock TestEnclave.TestFsync
       TestEnclave.TestInotifyInit1 TestEnclave.TestInotifyAddWatch
       TestEnclave.TestInotifyRmWatch TestEnclave.TestSchedYield
       TestEnclave.TestIsAtty TestEnclave.TestUSleep
       TestEnclave.bind TestEnclave.ret TestEnclave.return_
       TestEnclave.stack_size TestEnclave.Pop TestEnclave.PopAs
       TestEnclave.PushByCopyAs TestEnclave.PushByCopyBytes
       TestEnclave.ASYLO_RETURN_IF_INCORRECT_ARGUMENTS
       TestEnclave.ASYLO_RETURN_IF_STACK_EMPTY TestEnclave.BestEffortAbort
       TestEnclave.enc_untrusted TestEnclave.enc_untrusted_fill
       TestEnclave.strlen TestEnclave.buffer_store TestEnclave.buffer_load
       TestEnclave.set_params TestEnclave.outcome_state
       TestEnclave.params TestEnclave.calls TestEnclave.frame
       TestEnclave.accesses
       ParameterStack.Pop ParameterStack.PopValue ParameterStack.PushValue
       ParameterStack.PushBytes ParameterStack.size
       ParameterStack.with_entries ParameterStack.entries
       ParameterStack.variant].

Ltac split_handler_tests :=
  repeat match goal with
    | |- context [if Nat.eqb (length ?e) ?n then _ else _] =>
        destruct (Nat.eqb (length e) n)
    | |- context [match TestEnclave.find_nul ?m ?o ?f with _ => _ end] =>
        destruct (TestEnclave.find_nul m o f)
    end.

Section HandlerDiscipline.
Import Status Bytes TestEnclave HandlerTables.

(** X7. A handler that returns success has called the host exactly once;
    a handler that returns a failure has not called it. *)
Theorem handlers_call_host_once
    (env : Env) (t : TestSelector) (s s' : State) (st : PrimitiveStatus) :
  run (entry_handler env t) s = Returned st s' ->
  (ok st = true -> exists c, calls s' = c :: calls s)
  /\ (ok st = false -> calls s' = calls s).
Proof.
  destruct s as [[v es] h m log].
  destruct es as [|e1 [|e2 [|e3 [|e4 [|e5 es]]]]];
    destruct t; unfold_entry_handler; cbn [length Nat.eqb];
    split_handler_tests;
    intros [= <- <-]; cbn; split; intros Hok;
    try discriminate Hok; eauto.
Qed.

Lemma handlers_call_host_once_witness :
  (ok OkStatus = true ->
   exists c,
     [sys_access (Examples.c_str "illegal_path") 6]
     = c :: @nil HostCall)
  /\ (ok OkStatus = false ->
      [sys_access (Examples.c_str "illegal_path") 6] = @nil HostCall).
Proof.
  apply (handlers_call_host_once Examples.quiet_env kTestAccess
           {| params := ParameterStack.push_bytes_all
                          [Examples.c_str "illegal_path"; encode int 6]
                          (ParameterStack.empty ParameterStack.Trusted);
              calls := []; frame := Examples.zero_frame; accesses := [] |}
           {| params := ParameterStack.PushValue int 0
                          (ParameterStack.empty ParameterStack.Trusted);
              calls := [sys_access (Examples.c_str "illegal_path") 6];
              frame := Examples.zero_frame; accesses := [] |}
           OkStatus).
  reflexivity.
Defined.





(** X10. The value a handler returns to its caller is stored with the size
    of the type given to [PushByCopy<T>]: eight bytes for [TestLseek],
    [TestRead], [TestWrite], [TestSymlink] and [TestReadlink], four bytes
    for the others. *)
Theorem result_entry_has_declared_size
    (env : Env) (t : TestSelector) (s s' : State) (st : PrimitiveStatus) :
  run (entry_handler env t) s = Returned st s' ->
  ok st = true ->
  length (List.last (ParameterStack.entries (params s')) [])
  = sizeof (result_type t).
Proof.
  destruct s as [[v es] h m log].
  destruct es as [|e1 [|e2 [|e3 [|e4 [|e5 es]]]]];
    destruct t; unfold_entry_handler; cbn [length Nat.eqb];
    split_handler_tests;
    intros [= <- <-]; cbn [ok error_code failure OkStatus];
    intros Hok; try discriminate Hok;
    cbn [List.last result_type params ParameterStack.entries];
    apply length_encode.
Qed.

Lemma result_entry_has_declared_size_witness :
  length (List.last (ParameterStack.entries
                  (ParameterStack.PushValue int 0
                     (ParameterStack.empty ParameterStack.Trusted))) [])
  = sizeof (result_type kTestAccess).
Proof.
  apply (result_entry_has_declared_size Examples.quiet_env kTestAccess
           {| params := ParameterStack.push_bytes_all
                          [Examples.c_str "illegal_path"; encode int 6]
                          (ParameterStack.empty ParameterStack.Trusted);
              calls := []; frame := Examples.zero_frame; accesses := [] |}
           {| params := ParameterStack.PushValue int 0
                          (ParameterStack.empty ParameterStack.Trusted);
              calls := [sys_access (Examples.c_str "illegal_path") 6];
              frame := Examples.zero_frame; accesses := [] |}
           OkStatus).
  - reflexivity.
  - reflexivity.
Defined.

End HandlerDiscipline.


(** ** The handlers with a local buffer *)

Section LocalBuffers.
Import Status Bytes TestEnclave HandlerTables.

Lemma first_nul_lt (bs : list byte) :
  forall n, first_nul bs = Some n -> (n < length bs)%nat.
Proof.
  induction bs as [|b bs IH]; intros n; cbn [first_nul length];
    [discriminate|].
  destruct (b =? 0); [intros [= <-]; lia|].
  destruct (first_nul bs) as [k|]; [|discriminate].
  intros [= <-]. specialize (IH k eq_refl). lia.
Qed.

Lemma store_agree (m : Z -> byte) (off : Z) (data : list byte) (i : nat) :
  (i < length data)%nat ->
  store m off data (off + Z.of_nat i) = nth i data 0.
Proof.
  intros Hi. unfold store.
  destruct (Z.leb_spec off (off + Z.of_nat i)); [|lia].
  destruct (Z.ltb_spec (off + Z.of_nat i) (off + Z.of_nat (length data)));
    [|lia].
  cbn [andb]. f_equal. lia.
Qed.

Lemma store_outside (m : Z -> byte) (off : Z) (data : list byte) (i : Z) :
  i < off \/ off + Z.of_nat (length data) <= i ->
  store m off data i = m i.
Proof.
  intros Hi. unfold store.
  destruct (Z.leb_spec off i), (Z.ltb_spec i (off + Z.of_nat (length data)));
    cbn [andb]; try reflexivity; lia.
Qed.

(** [find_nul] on memory that agrees with a list finds the first NUL of
    the list. *)
Lemma find_nul_agree (data : list byte) :
  forall (m : Z -> byte) (off : Z) (fuel n : nat),
    (forall i, (i < length data)%nat -> m (off + Z.of_nat i) = nth i data 0) ->
    first_nul data = Some n ->
    (n < fuel)%nat ->
    find_nul m off fuel = Some (off + Z.of_nat n).
Proof.
  induction data as [|b data IH]; intros m off fuel n Hm;
    cbn [first_nul]; [discriminate|].
  pose proof (Hm O ltac:(cbn; lia)) as H0. cbn [nth] in H0.
  rewrite Z.add_0_r in H0.
  destruct (b =? 0) eqn:Hb.
  - intros [= <-] Hfuel. destruct fuel as [|fuel]; [lia|].
    cbn [find_nul]. rewrite H0, Hb. f_equal. lia.
  - destruct (first_nul data) as [k|] eqn:Hk; [|discriminate].
    intros [= <-] Hfuel. destruct fuel as [|fuel]; [lia|].
    cbn [find_nul]. rewrite H0, Hb.
    rewrite (IH m (off + 1) fuel k); [f_equal; lia | | reflexivity | lia].
    intros i Hi. specialize (Hm (S i) ltac:(cbn; lia)).
    cbn [nth] in Hm. rewrite <- Hm. f_equal. lia.
Qed.

(** [find_nul] stops at or before any NUL within its reach. *)
Lemma find_nul_exists (m : Z -> byte) :
  forall (k : nat) (off : Z) (fuel : nat),
    m (off + Z.of_nat k) = 0 ->
    (k < fuel)%nat ->
    exists n : nat, (n <= k)%nat /\ find_nul m off fuel = Some (off + Z.of_nat n).
Proof.
  induction k as [|k IH]; intros off fuel Hk Hfuel;
    (destruct fuel as [|fuel]; [lia|]); cbn [find_nul].
  - rewrite Z.add_0_r in Hk. rewrite Hk. cbn [Z.eqb].
    exists O. split; [lia | f_equal; lia].
  - destruct (m off =? 0) eqn:Hoff.
    + exists O. split; [lia | f_equal; lia].
    + destruct (IH (off + 1) fuel) as (n & Hn & Hfind); [|lia|].
      * rewrite <- Hk. f_equal. lia.
      * exists (S n). split; [lia|]. rewrite Hfind. f_equal. lia.
Qed.

Lemma firstn_as_map {A : Type} (d : A) (l : list A) (k : nat) :
  (k <= length l)%nat ->
  firstn k l = map (fun i => nth i l d) (seq 0 k).
Proof.
  intros Hk.
  rewrite <- (map_nth_seq_id d (firstn k l)) at 1.
  rewrite length_firstn, Nat.min_l by exact Hk.
  apply map_ext_in. intros i Hi. apply in_seq in Hi.
  rewrite nth_firstn.
  destruct (Nat.ltb_spec i k); [reflexivity | lia].
Qed.

(** Reading back the first [k] bytes of what was stored. *)
Lemma load_after_store (m : Z -> byte) (data : list byte) (k : nat) :
  (k <= length data)%nat ->
  map (store m 0 data) (seqZ 0 (Z.of_nat k)) = firstn k data.
Proof.
  intros Hk. unfold seqZ. rewrite Nat2Z.id.
  rewrite (firstn_as_map (0 : byte) data k Hk).
  change (map (store m 0 data)
            (map (fun i : nat => Z.of_nat i + 0) (seq 0 k))
          = map (fun i => nth i data 0) (seq 0 k)).
  rewrite map_map. apply map_ext_in. intros i Hi. apply in_seq in Hi.
  rewrite Z.add_comm. apply store_agree. lia.
Qed.

End LocalBuffers.

Section LocalBufferClaims.
Import Status Bytes TestEnclave HandlerTables.

Lemma small_count_in_range (count : Z) :
  0 <= count <= read_buf_size -> in_range size_t count.
Proof.
  unfold in_range, modulus, read_buf_size. cbn [is_signed size_t sizeof].
  change (2 ^ (8 * Z.of_nat 8)) with (2 ^ 64). lia.
Qed.

(** X11. [TestRead] stays inside its 20-byte [read_buf] when the count is
    at most 20 and the bytes the host hands back hold a NUL: the bytes are
    stored at the start of the buffer, the string up to and including its
    first NUL is pushed on top of the host's return value, and every access
    lies within the buffer. *)
Theorem TestRead_within_read_buf
    (env : Env) (fd count : Z) (history : list HostCall) (m : Z -> byte)
    (log : list Access) (v : ParameterStack.Variant) (n : nat) :
  in_range int fd ->
  0 <= count <= read_buf_size ->
  (Z.to_nat read_buf_size <= mapped env)%nat ->
  let data :=
    firstn (Z.to_nat count) (host_out env history (sys_read fd count)) in
  first_nul data = Some n ->
  let new_accesses :=
    [Load 0 (Z.of_nat n + 1); Load 0 (Z.of_nat n + 1);
     Store 0 (Z.of_nat (length data))] in
  run (TestRead env)
      {| params := ParameterStack.PushValue size_t count
                     (ParameterStack.PushValue int fd
                        (ParameterStack.empty v));
         calls := history; frame := m; accesses := log |}
  = Returned OkStatus
      {| params := ParameterStack.PushBytes (firstn (S n) data)
                     (ParameterStack.PushValue ssize_t
                        (host_ret env history (sys_read fd count))
                        (ParameterStack.empty v));
         calls := sys_read fd count :: history;
         frame := store m 0 data;
         accesses := new_accesses ++ log |}
  /\ forallb (within_bounds read_buf_size) new_accesses = true.
Proof.
  intros Hfd Hcount Hmapped data Hnul new_accesses.
  pose proof (first_nul_lt data n Hnul) as Hn.
  assert (Hlen : (length data <= Z.to_nat count)%nat)
    by (unfold data; rewrite length_firstn; lia).
  split.
  - unfold_entry_handler. cbn [length Nat.eqb ParameterStack.empty].
    repeat (rewrite length_encode; cbn [sizeof size_t int Nat.eqb]).
    rewrite (decode_encode size_t count (small_count_in_range count Hcount)).
    rewrite (decode_encode int fd Hfd).
    fold data.
    rewrite (find_nul_agree data (store m 0 data) 0 (mapped env) n);
      [| intros i Hi; apply (store_agree m 0 data i Hi) | exact Hnul
       | unfold read_buf_size in *; lia].
    replace (0 + Z.of_nat n + 1) with (Z.of_nat (S n)) by lia.
    rewrite load_after_store by lia.
    unfold new_accesses.
    replace (Z.of_nat n + 1) with (Z.of_nat (S n)) by lia.
    reflexivity.
  - unfold new_accesses, read_buf_size in *. cbn [forallb within_bounds].
    rewrite !andb_true_iff, !Z.leb_le. lia.
Qed.

Lemma TestRead_within_read_buf_witness :
  run (TestRead MoreExamples.greeting_env)
      {| params := ParameterStack.PushValue size_t 3
                     (ParameterStack.PushValue int 7
                        (ParameterStack.empty ParameterStack.Trusted));
         calls := []; frame := Examples.zero_frame; accesses := [] |}
  = Returned OkStatus
      {| params := ParameterStack.PushBytes [104; 105; 0]
                     (ParameterStack.PushValue ssize_t 3
                        (ParameterStack.empty ParameterStack.Trusted));
         calls := [sys_read 7 3];
         frame := store Examples.zero_frame 0 [104; 105; 0];
         accesses := [Load 0 3; Load 0 3; Store 0 3] |}
  /\ forallb (within_bounds read_buf_size)
       [Load 0 3; Load 0 3; Store 0 3] = true.
Proof.
  apply (TestRead_within_read_buf MoreExamples.greeting_env 7 3 []
           Examples.zero_frame [] ParameterStack.Trusted 2).
  - vm_compute. split; [discriminate | reflexivity].
  - unfold read_buf_size. lia.
  - vm_compute. lia.
  - reflexivity.
Defined.

End LocalBufferClaims.

Section ReadlinkClaims.
Import Status Bytes TestEnclave HandlerTables.

Lemma ssize_in_range (len : Z) :
  - 2 ^ 63 <= len < 2 ^ 63 -> in_range ssize_t len.
Proof.
  unfold in_range, modulus. cbn [is_signed ssize_t sizeof].
  change (2 ^ (8 * Z.of_nat 8) / 2) with (2 ^ 63). lia.
Qed.

(** X12. [TestReadlink] stays inside its [PATH_MAX]-byte [buf] whenever the
    host's [readlink] returns a length between 0 and [PATH_MAX - 1]: the
    handler returns success with two results, the string pushed on top is
    no longer than that length plus its NUL, and every access lies within
    the buffer. *)
Theorem TestReadlink_within_buf
    (env : Env) (path : list byte) (history : list HostCall)
    (m : Z -> byte) (log : list Access) (v : ParameterStack.Variant) :
  let call := sys_readlink path (PATH_MAX - 1) in
  let len := host_ret env history call in
  let data := firstn (Z.to_nat (PATH_MAX - 1)) (host_out env history call) in
  0 <= len <= PATH_MAX - 1 ->
  (Z.to_nat PATH_MAX <= mapped env)%nat ->
  exists (n : nat) (bs : list byte),
    let new_accesses :=
      [Load 0 (Z.of_nat n + 1); Load 0 (Z.of_nat n + 1);
       Store len 1; Store 0 (Z.of_nat (length data))] in
    run (TestReadlink env)
        {| params := ParameterStack.PushBytes path (ParameterStack.empty v);
           calls := history; frame := m; accesses := log |}
    = Returned OkStatus
        {| params := ParameterStack.PushBytes bs
                       (ParameterStack.PushValue ssize_t len
                          (ParameterStack.empty v));
           calls := call :: history;
           frame := store (store m 0 data) len [0];
           accesses := new_accesses ++ log |}
    /\ length bs = S n
    /\ Z.of_nat n <= len
    /\ forallb (within_bounds PATH_MAX) new_accesses = true.
Proof.
  intros call len data Hlen Hmapped.
  assert (Hdata : (length data <= Z.to_nat (PATH_MAX - 1))%nat)
    by (unfold data; rewrite length_firstn; lia).
  unfold PATH_MAX in *.
  destruct (find_nul_exists (store (store m 0 data) len ([0] : list byte))
              (Z.to_nat len) 0 (mapped env)) as (n & Hn & Hfind).
  { rewrite Z.add_0_l, Z2Nat.id by lia.
    replace len with (len + Z.of_nat 0) at 2 by lia.
    now rewrite store_agree by (cbn; lia). }
  { lia. }
  exists n, (map (store (store m 0 data) len ([0] : list byte))
                 (seqZ 0 (Z.of_nat n + 1))).
  split; [|split; [|split]].
  - unfold_entry_handler. cbn [length Nat.eqb ParameterStack.empty].
    unfold PATH_MAX. fold call. fold len. fold data.
    rewrite (wrap_in_range ssize_t len) by (apply ssize_in_range; lia).
    change (4096 - 1) with 4095 in *.
    unfold byte in *. rewrite Hfind. rewrite Z.add_0_l. reflexivity.
  - rewrite length_map, length_seqZ. lia.
  - lia.
  - cbn [forallb within_bounds].
    rewrite !andb_true_iff, !Z.leb_le. lia.
Qed.

(** X13. When the host's [readlink] fails ([len] negative), [TestReadlink]
    still executes [buf[len] = 0]: the NUL is written at a negative offset,
    before the start of [buf], whether or not the run then completes. *)
Theorem TestReadlink_failure_writes_before_buf
    (env : Env) (path : list byte) (history : list HostCall)
    (m : Z -> byte) (log : list Access) (v : ParameterStack.Variant) :
  let len := host_ret env history (sys_readlink path (PATH_MAX - 1)) in
  - 2 ^ 63 <= len < 0 ->
  In (Store len 1)
     (accesses
        (outcome_state
           (run (TestReadlink env)
                {| params := ParameterStack.PushBytes path
                               (ParameterStack.empty v);
                   calls := history; frame := m; accesses := log |})))
  /\ within_bounds PATH_MAX (Store len 1) = false.
Proof.
  intros len Hlen. split.
  - unfold_entry_handler. cbn [length Nat.eqb ParameterStack.empty].
    fold len.
    rewrite (wrap_in_range ssize_t len) by (apply ssize_in_range; lia).
    split_handler_tests; cbn [In]; tauto.
  - cbn [within_bounds]. destruct (Z.leb_spec 0 len); [lia | reflexivity].
Qed.

Lemma TestReadlink_within_buf_witness :
  exists (n : nat) (bs : list byte),
    run (TestReadlink MoreExamples.greeting_env)
        {| params := ParameterStack.PushBytes [108; 0]
                       (ParameterStack.empty ParameterStack.Trusted);
           calls := []; frame := Examples.zero_frame; accesses := [] |}
    = Returned OkStatus
        {| params := ParameterStack.PushBytes bs
                       (ParameterStack.PushValue ssize_t 2
                          (ParameterStack.empty ParameterStack.Trusted));
           calls := [sys_readlink [108; 0] 4095];
           frame := store (store Examples.zero_frame 0 [47; 120]) 2 [0];
           accesses := [Load 0 (Z.of_nat n + 1); Load 0 (Z.of_nat n + 1);
                        Store 2 1; Store 0 2] |}
    /\ length bs = S n
    /\ Z.of_nat n <= 2
    /\ forallb (within_bounds PATH_MAX)
         [Load 0 (Z.of_nat n + 1); Load 0 (Z.of_nat n + 1);
          Store 2 1; Store 0 2] = true.
Proof.
  apply (TestReadlink_within_buf MoreExamples.greeting_env [108; 0] []
           Examples.zero_frame [] ParameterStack.Trusted).
  - unfold PATH_MAX. cbn. lia.
  - vm_compute. lia.
Defined.

Lemma TestReadlink_failure_writes_before_buf_witness :
  In (Store (-1) 1)
     (accesses
        (outcome_state
           (run (TestReadlink MoreExamples.failing_env)
                {| params := ParameterStack.PushBytes [108; 0]
                               (ParameterStack.empty ParameterStack.Trusted);
                   calls := []; frame := Examples.zero_frame;
                   accesses := [] |})))
  /\ within_bounds PATH_MAX (Store (-1) 1) = false.
Proof.
  apply (TestReadlink_failure_writes_before_buf MoreExamples.failing_env
           [108; 0] [] Examples.zero_frame [] ParameterStack.Trusted).
  cbn. lia.
Defined.

End ReadlinkClaims.

(** ** Calls as the tests of host_call_test.cc make them *)

Ltac run_pushed_arguments :=
  unfold Client.entry_state; unfold_entry_handler;
  cbn [length Nat.eqb ParameterStack.empty];
  repeat (rewrite length_encode;
          cbn [Bytes.sizeof Bytes.int Bytes.unsigned_int Bytes.uint32_t
               Bytes.mode_t Bytes.pid_t Bytes.uid_t Bytes.gid_t Bytes.off_t
               Bytes.size_t Bytes.ssize_t Nat.eqb]);
  rewrite ?decode_encode by assumption.

Section CallScenarios.
Import Status Bytes TestEnclave Client.

Lemma EnclaveCall_runs_handler
    (history : list HostCall) (garbage : Z -> byte) (c : Client.t)
    (sel : Primitives.Selector) (stack : ParameterStack.t) (h : Handler) :
  IsClosed c = false ->
  entry_table (enclave c) !! sel = Some h ->
  EnclaveCall history garbage c sel stack =
  match run h (entry_state history garbage stack) with
  | Returned st s' =>
      CallReturned st
        (ParameterStack.with_entries stack
           (ParameterStack.entries (params s')))
  | Aborted msg _ => EnclaveAborted msg
  | Faulted _ => EnclaveFaulted
  end.
Proof.
  intros Hopen Hbound. unfold EnclaveCall.
  now rewrite Hopen, (lookup_handler_bound _ _ _ Hbound).
Qed.

Lemma decode_encode_wrap (t : ctype) (v : Z) :
  decode t (encode t v) = wrap t v.
Proof.
  unfold decode, encode. rewrite decode_encode_le.
  fold (modulus t). apply wrap_mod.
Qed.

Lemma pop_push_value_same_size
    (t1 t2 : ctype) (v : Z) (s : ParameterStack.t) :
  sizeof t1 = sizeof t2 ->
  ParameterStack.PopValue t2 (ParameterStack.PushValue t1 v s)
    = (inr (wrap t2 v), s).
Proof.
  intros Hsize. destruct s as [var es].
  unfold ParameterStack.PopValue, ParameterStack.PushValue,
    ParameterStack.PushBytes, ParameterStack.Pop,
    ParameterStack.with_entries.
  cbn [ParameterStack.entries ParameterStack.variant].
  rewrite length_encode, Hsize, Nat.eqb_refl.
  unfold decode, encode. rewrite decode_encode_le, Hsize.
  fold (modulus t2). now rewrite wrap_mod.
Qed.

(** X14. A value pushed with [PushByCopy<T1>] and popped with [Pop<T2>],
    for types of the same size, comes back converted to [T2] and the stack
    is as before the push; it comes back unchanged when it is a value of
    [T2] (as when [HostCallTest.TestUmask] pushes an [int] that [TestUmask]
    pops as a [mode_t]). *)
Theorem typed_push_pop_round_trip
    (t1 t2 : ctype) (v : Z) (s : ParameterStack.t) :
  sizeof t1 = sizeof t2 ->
  ParameterStack.PopValue t2 (ParameterStack.PushValue t1 v s)
    = (inr (wrap t2 v), s)
  /\ (in_range t2 v ->
      ParameterStack.PopValue t2 (ParameterStack.PushValue t1 v s)
        = (inr v, s)).
Proof.
  intros Hsize.
  pose proof (pop_push_value_same_size t1 t2 v s Hsize) as H.
  split; [exact H|]. intros Hv. now rewrite H, wrap_in_range.
Qed.

Lemma typed_push_pop_round_trip_witness :
  ParameterStack.PopValue mode_t
    (ParameterStack.PushValue int 18
       (ParameterStack.empty ParameterStack.Native))
    = (inr (wrap mode_t 18), ParameterStack.empty ParameterStack.Native)
  /\ (in_range mode_t 18 ->
      ParameterStack.PopValue mode_t
        (ParameterStack.PushValue int 18
           (ParameterStack.empty ParameterStack.Native))
        = (inr 18, ParameterStack.empty ParameterStack.Native)).
Proof.
  apply (typed_push_pop_round_trip int mode_t 18
           (ParameterStack.empty ParameterStack.Native)).
  reflexivity.
Defined.

(** X15. [HostCallTest.TestOpen] and [TestOpenExistingFile]: with the
    path, the flags and the mode pushed in this order the host is asked
    [open(path, flags, mode)]; with only the path and the flags it is asked
    [open(path, flags)]; either way the caller's stack then holds the
    host's answer as its single [int] entry. *)
Theorem open_call_scenario
    (env : Env) (history : list HostCall) (garbage : Z -> byte)
    (c : Client.t) (sel : Primitives.Selector)
    (path : list byte) (flags mode : Z) :
  IsClosed c = false ->
  entry_table (enclave c) !! sel = Some (TestOpen env) ->
  in_range int flags ->
  in_range mode_t mode ->
  EnclaveCall history garbage c sel
    (ParameterStack.PushValue mode_t mode
       (ParameterStack.PushValue int flags
          (ParameterStack.PushBytes path
             (ParameterStack.empty ParameterStack.Native))))
  = CallReturned OkStatus
      (ParameterStack.PushValue int
         (host_ret env history (sys_open path flags (Some mode)))
         (ParameterStack.empty ParameterStack.Native))
  /\ EnclaveCall history garbage c sel
       (ParameterStack.PushValue int flags
          (ParameterStack.PushBytes path
             (ParameterStack.empty ParameterStack.Native)))
     = CallReturned OkStatus
         (ParameterStack.PushValue int
            (host_ret env history (sys_open path flags None))
            (ParameterStack.empty ParameterStack.Native)).
Proof.
  intros Hopen Hbound Hflags Hmode.
  rewrite !(EnclaveCall_runs_handler _ _ _ _ _ _ Hopen Hbound).
  split; run_pushed_arguments; reflexivity.
Qed.

(** X16. [HostCallTest.TestLseek]: with the descriptor, the offset and
    [whence] pushed in this order the host is asked [lseek(fd, offset,
    whence)], and the caller pops the host's answer as an [off_t], which
    leaves the stack empty. *)
Theorem lseek_call_scenario
    (env : Env) (history : list HostCall) (garbage : Z -> byte)
    (c : Client.t) (sel : Primitives.Selector) (fd offset whence : Z) :
  IsClosed c = false ->
  entry_table (enclave c) !! sel = Some (TestLseek env) ->
  in_range int fd ->
  in_range off_t offset ->
  in_range int whence ->
  let r := host_ret env history (sys_lseek fd offset whence) in
  EnclaveCall history garbage c sel
    (ParameterStack.PushValue int whence
       (ParameterStack.PushValue off_t offset
          (ParameterStack.PushValue int fd
             (ParameterStack.empty ParameterStack.Native))))
  = CallReturned OkStatus
      (ParameterStack.PushValue off_t r
         (ParameterStack.empty ParameterStack.Native))
  /\ ParameterStack.PopValue off_t
       (ParameterStack.PushValue off_t r
          (ParameterStack.empty ParameterStack.Native))
     = (inr (wrap off_t r), ParameterStack.empty ParameterStack.Native).
Proof.
  intros Hopen Hbound Hfd Hoffset Hwhence r. split.
  - rewrite (EnclaveCall_runs_handler _ _ _ _ _ _ Hopen Hbound).
    run_pushed_arguments. reflexivity.
  - apply pop_push_value_same_size. reflexivity.
Qed.

(** X17. [HostCallTest.TestWrite]: with the descriptor, the buffer and the
    count pushed in this order the host is asked [write(fd, buffer,
    count)] and its answer comes back as the single [ssize_t] entry. *)
Theorem write_call_scenario
    (env : Env) (history : list HostCall) (garbage : Z -> byte)
    (c : Client.t) (sel : Primitives.Selector)
    (fd count : Z) (write_buf : list byte) :
  IsClosed c = false ->
  entry_table (enclave c) !! sel = Some (TestWrite env) ->
  in_range int fd ->
  in_range size_t count ->
  EnclaveCall history garbage c sel
    (ParameterStack.PushValue size_t count
       (ParameterStack.PushBytes write_buf
          (ParameterStack.PushValue int fd
             (ParameterStack.empty ParameterStack.Native))))
  = CallReturned OkStatus
      (ParameterStack.PushValue ssize_t
         (host_ret env history (sys_write fd write_buf count))
         (ParameterStack.empty ParameterStack.Native)).
Proof.
  intros Hopen Hbound Hfd Hcount.
  rewrite (EnclaveCall_runs_handler _ _ _ _ _ _ Hopen Hbound).
  run_pushed_arguments. reflexivity.
Qed.

(** X18. [HostCallTest.TestSetSockOpt]: with the socket, the level, the
    option name and the option value pushed in this order the host is
    asked [setsockopt] on that socket and level, with the name converted by
    [FromkLinuxOptionName] and the four bytes of the value. *)
Theorem setsockopt_call_scenario
    (env : Env) (history : list HostCall) (garbage : Z -> byte)
    (c : Client.t) (sel : Primitives.Selector)
    (sockfd level klinux_optname option : Z) :
  IsClosed c = false ->
  entry_table (enclave c) !! sel = Some (TestSetsockopt env) ->
  in_range int sockfd ->
  in_range int level ->
  in_range int klinux_optname ->
  in_range int option ->
  EnclaveCall history garbage c sel
    (ParameterStack.PushValue int option
       (ParameterStack.PushValue int klinux_optname
          (ParameterStack.PushValue int level
             (ParameterStack.PushValue int sockfd
                (ParameterStack.empty ParameterStack.Native)))))
  = CallReturned OkStatus
      (ParameterStack.PushValue int
         (host_ret env history
            (sys_setsockopt sockfd level
               (FromkLinuxOptionName env level klinux_optname)
               (encode int option) 4))
         (ParameterStack.empty ParameterStack.Native)).
Proof.
  intros Hopen Hbound Hsock Hlevel Hname Hoption.
  rewrite (EnclaveCall_runs_handler _ _ _ _ _ _ Hopen Hbound).
  run_pushed_arguments. reflexivity.
Qed.

(** X19. [HostCallTest.TestChown]: with the path, the owner and the group
    pushed in this order the host is asked [chown(path, owner, group)] and
    its answer comes back as the single [int] entry. *)
Theorem chown_call_scenario
    (env : Env) (history : list HostCall) (garbage : Z -> byte)
    (c : Client.t) (sel : Primitives.Selector)
    (path : list byte) (owner group : Z) :
  IsClosed c = false ->
  entry_table (enclave c) !! sel = Some (TestChown env) ->
  in_range uid_t owner ->
  in_range gid_t group ->
  EnclaveCall history garbage c sel
    (ParameterStack.PushValue gid_t group
       (ParameterStack.PushValue uid_t owner
          (ParameterStack.PushBytes path
             (ParameterStack.empty ParameterStack.Native))))
  = CallReturned OkStatus
      (ParameterStack.PushValue int
         (host_ret env history (sys_chown path owner group))
         (ParameterStack.empty ParameterStack.Native)).
Proof.
  intros Hopen Hbound Howner Hgroup.
  rewrite (EnclaveCall_runs_handler _ _ _ _ _ _ Hopen Hbound).
  run_pushed_arguments. reflexivity.
Qed.

Lemma open_call_scenario_witness :
  EnclaveCall [] Examples.zero_frame
    (MoreExamples.client_with (TestOpen Examples.quiet_env)) 130%N
    (ParameterStack.PushValue mode_t 384
       (ParameterStack.PushValue int 66
          (ParameterStack.PushBytes [102; 0]
             (ParameterStack.empty ParameterStack.Native))))
  = CallReturned OkStatus
      (ParameterStack.PushValue int 0
         (ParameterStack.empty ParameterStack.Native))
  /\ EnclaveCall [] Examples.zero_frame
       (MoreExamples.client_with (TestOpen Examples.quiet_env)) 130%N
       (ParameterStack.PushValue int 66
          (ParameterStack.PushBytes [102; 0]
             (ParameterStack.empty ParameterStack.Native)))
     = CallReturned OkStatus
         (ParameterStack.PushValue int 0
            (ParameterStack.empty ParameterStack.Native)).
Proof.
  apply (open_call_scenario Examples.quiet_env [] Examples.zero_frame
           (MoreExamples.client_with (TestOpen Examples.quiet_env)) 130%N
           [102; 0] 66 384).
  - reflexivity.
  - reflexivity.
  - vm_compute. split; [discriminate | reflexivity].
  - vm_compute. split; [discriminate | reflexivity].
Defined.

Lemma lseek_call_scenario_witness :
  EnclaveCall [] Examples.zero_frame
    (MoreExamples.client_with (TestLseek MoreExamples.failing_env)) 130%N
    (ParameterStack.PushValue int 1000
       (ParameterStack.PushValue off_t 0
          (ParameterStack.PushValue int 3
             (ParameterStack.empty ParameterStack.Native))))
  = CallReturned OkStatus
      (ParameterStack.PushValue off_t (-1)
         (ParameterStack.empty ParameterStack.Native))
  /\ ParameterStack.PopValue off_t
       (ParameterStack.PushValue off_t (-1)
          (ParameterStack.empty ParameterStack.Native))
     = (inr (wrap off_t (-1)), ParameterStack.empty ParameterStack.Native).
Proof.
  apply (lseek_call_scenario MoreExamples.failing_env [] Examples.zero_frame
           (MoreExamples.client_with (TestLseek MoreExamples.failing_env))
           130%N 3 0 1000).
  - reflexivity.
  - reflexivity.
  - vm_compute. split; [discriminate | reflexivity].
  - vm_compute. split; [discriminate | reflexivity].
  - vm_compute. split; [discriminate | reflexivity].
Defined.

Lemma write_call_scenario_witness :
  EnclaveCall [] Examples.zero_frame
    (MoreExamples.client_with (TestWrite Examples.quiet_env)) 130%N
    (ParameterStack.PushValue size_t 3
       (ParameterStack.PushBytes [104; 105; 0]
          (ParameterStack.PushValue int 4
             (ParameterStack.empty ParameterStack.Native))))
  = CallReturned OkStatus
      (ParameterStack.PushValue ssize_t 0
         (ParameterStack.empty ParameterStack.Native)).
Proof.
  apply (write_call_scenario Examples.quiet_env [] Examples.zero_frame
           (MoreExamples.client_with (TestWrite Examples.quiet_env)) 130%N
           4 3 [104; 105; 0]).
  - reflexivity.
  - reflexivity.
  - vm_compute. split; [discriminate | reflexivity].
  - vm_compute. split; [discriminate | reflexivity].
Defined.

Lemma setsockopt_call_scenario_witness :
  EnclaveCall [] Examples.zero_frame
    (MoreExamples.client_with (TestSetsockopt Examples.quiet_env)) 130%N
    (ParameterStack.PushValue int 1
       (ParameterStack.PushValue int 2
          (ParameterStack.PushValue int 1
             (ParameterStack.PushValue int 9
                (ParameterStack.empty ParameterStack.Native)))))
  = CallReturned OkStatus
      (ParameterStack.PushValue int 0
         (ParameterStack.empty ParameterStack.Native)).
Proof.
  apply (setsockopt_call_scenario Examples.quiet_env [] Examples.zero_frame
           (MoreExamples.client_with (TestSetsockopt Examples.quiet_env))
           130%N 9 1 2 1).
  - reflexivity.
  - reflexivity.
  - vm_compute. split; [discriminate | reflexivity].
  - vm_compute. split; [discriminate | reflexivity].
  - vm_compute. split; [discriminate | reflexivity].
  - vm_compute. split; [discriminate | reflexivity].
Defined.

Lemma chown_call_scenario_witness :
  EnclaveCall [] Examples.zero_frame
    (MoreExamples.client_with (TestChown Examples.quiet_env)) 130%N
    (ParameterStack.PushValue gid_t 100
       (ParameterStack.PushValue uid_t 1000
          (ParameterStack.PushBytes [102; 0]
             (ParameterStack.empty ParameterStack.Native))))
  = CallReturned OkStatus
      (ParameterStack.PushValue int 0
         (ParameterStack.empty ParameterStack.Native)).
Proof.
  apply (chown_call_scenario Examples.quiet_env [] Examples.zero_frame
           (MoreExamples.client_with (TestChown Examples.quiet_env)) 130%N
           [102; 0] 1000 100).
  - reflexivity.
  - reflexivity.
  - vm_compute. split; [discriminate | reflexivity].
  - vm_compute. split; [discriminate | reflexivity].
Defined.

End CallScenarios.

(** ** When the initialisation of the test enclave succeeds *)

Section InitCharacterised.
Import Status Primitives Registry TestEnclave.

(** A successful [register_all] registered fresh, permitted and pairwise
    distinct selectors. *)
Lemma register_all_ok_inv {H : Type} (who : Registrant)
    (hs : list (Selector * H)) :
  forall (r r' : gmap N H) (st : PrimitiveStatus),
    register_all who hs r = (st, r') ->
    ok st = true ->
    List.NoDup (map fst hs)
    /\ forall s, In s (map fst hs) -> permitted who s = true /\ r !! s = None.
Proof.
  induction hs as [|[s h] hs IH]; intros r r' st; cbn [register_all map fst].
  - intros _ _. split; [apply List.NoDup_nil | intros s []].
  - unfold register at 1. unfold Selector in *.
    destruct (r !! s) as [h0|] eqn:Hr.
    { cbn. intros [= <- <-]. discriminate. }
    destruct (permitted who s) eqn:Hp.
    2:{ cbn. intros [= <- <-]. discriminate. }
    cbn [ok error_code OkStatus]. intros Hrest Hok.
    destruct (IH _ _ _ Hrest Hok) as [Hnd Hall].
    assert (Hfresh : ~ In s (map fst hs)).
    { intros Hin. destruct (Hall s Hin) as [_ Hnone].
      rewrite lookup_insert_eq in Hnone. discriminate. }
    split; [now apply List.NoDup_cons|].
    intros s' [<- | Hin]; [now split|].
    destruct (Hall s' Hin) as [Hp' Hnone]. split; [exact Hp'|].
    rewrite lookup_insert_ne in Hnone; [exact Hnone|].
    intros ->. contradiction.
Qed.

Lemma NoDup_map_injective {A B : Type} (f : A -> B) (l : list A) :
  List.NoDup (map f l) ->
  forall x y, In x l -> In y l -> f x = f y -> x = y.
Proof.
  induction l as [|a l IH]; cbn [map]; intros Hnd x y Hx Hy Hxy;
    [destruct Hx|].
  apply List.NoDup_cons_iff in Hnd. destruct Hnd as [Ha Hnd].
  destruct Hx as [<- | Hx], Hy as [<- | Hy].
  - reflexivity.
  - exfalso. apply Ha. rewrite Hxy. now apply in_map.
  - exfalso. apply Ha. rewrite <- Hxy. now apply in_map.
  - now apply IH.
Qed.

(** X20. [asylo_enclave_init] on an empty table succeeds exactly when the
    forty selectors have pairwise distinct values that all lie in the
    application range; it then binds every handler under its selector. *)
Theorem asylo_enclave_init_succeeds_iff
    (env : Env) (selector_value : TestSelector -> Selector) :
  let distinct_user_selectors :=
    (forall t, available_to_applications (selector_value t) = true)
    /\ (forall t t', selector_value t = selector_value t' -> t = t') in
  (ok (fst (asylo_enclave_init env selector_value ∅)) = true
   <-> distinct_user_selectors)
  /\ (distinct_user_selectors ->
      forall t,
        snd (asylo_enclave_init env selector_value ∅) !! selector_value t
        = Some (entry_handler env t)).
Proof.
  intros distinct_user_selectors. split; [split|].
  - intros Hok.
    destruct (asylo_enclave_init env selector_value ∅) as [st table] eqn:Hinit.
    unfold asylo_enclave_init in Hinit.
    destruct (register_all_ok_inv _ _ _ _ _ Hinit Hok) as [Hnd Hall].
    rewrite map_map in Hnd, Hall. cbn [fst] in Hnd, Hall. split.
    + intros t. apply (Hall (selector_value t)).
      apply in_map, registration_order_complete.
    + intros t t'. apply (NoDup_map_injective _ _ Hnd);
        apply registration_order_complete.
  - intros [Huser Hinj].
    destruct (asylo_enclave_init_binds env selector_value Huser Hinj)
      as (table & Hinit & _).
    now rewrite Hinit.
  - intros [Huser Hinj] t.
    destruct (asylo_enclave_init_binds env selector_value Huser Hinj)
      as (table & Hinit & Hbound).
    rewrite Hinit. apply Hbound.
Qed.

Lemma asylo_enclave_init_succeeds_iff_witness :
  ok (fst (asylo_enclave_init Examples.quiet_env
             MoreExamples.test_selector_value ∅)) = true.
Proof.
  apply (proj1 (asylo_enclave_init_succeeds_iff Examples.quiet_env
                  MoreExamples.test_selector_value)).
  split.
  - intros t. destruct t; reflexivity.
  - intros t t'. destruct t, t'; intros H;
      first [reflexivity | discriminate H].
Defined.

End InitCharacterised.

(** ** What [TestRead] does with an unchecked count and an unset buffer *)

Section ReadBufferEdges.
Import Status Bytes TestEnclave HandlerTables.

Lemma find_nul_ext (m1 m2 : Z -> byte) :
  (forall i, m1 i = m2 i) ->
  forall fuel off, find_nul m1 off fuel = find_nul m2 off fuel.
Proof.
  intros Hext. induction fuel as [|fuel IH]; intros off; cbn [find_nul];
    [reflexivity|].
  rewrite Hext. destruct (m2 off =? 0); [reflexivity | apply IH].
Qed.

Lemma store_nothing (m : Z -> byte) (off i : Z) : store m off [] i = m i.
Proof. apply store_outside. cbn [length]. lia. Qed.

(** X21. Whenever the host hands back more than 20 bytes (which takes a
    count above 20), [TestRead] stores all of them from the start of
    [read_buf]: the store runs past the end of the buffer, whether or not
    the run then completes. *)
Theorem TestRead_long_read_leaves_read_buf
    (env : Env) (fd count : Z) (history : list HostCall) (m : Z -> byte)
    (log : list Access) (v : ParameterStack.Variant) :
  in_range int fd ->
  in_range size_t count ->
  let data :=
    firstn (Z.to_nat count) (host_out env history (sys_read fd count)) in
  read_buf_size < Z.of_nat (length data) ->
  In (Store 0 (Z.of_nat (length data)))
     (accesses
        (outcome_state
           (run (TestRead env)
                {| params := ParameterStack.PushValue size_t count
                               (ParameterStack.PushValue int fd
                                  (ParameterStack.empty v));
                   calls := history; frame := m; accesses := log |})))
  /\ within_bounds read_buf_size (Store 0 (Z.of_nat (length data))) = false
  /\ read_buf_size < count.
Proof.
  intros Hfd Hcount data Hlong. split; [|split].
  - unfold_entry_handler. cbn [length Nat.eqb ParameterStack.empty].
    repeat (rewrite length_encode; cbn [sizeof size_t int Nat.eqb]).
    rewrite (decode_encode size_t count Hcount), (decode_encode int fd Hfd).
    fold data. split_handler_tests; cbn [In]; tauto.
  - cbn [within_bounds].
    destruct (Z.leb_spec (0 + Z.of_nat (length data)) read_buf_size);
      [lia | reflexivity].
  - assert ((length data <= Z.to_nat count)%nat)
      by (unfold data; rewrite length_firstn; lia).
    unfold read_buf_size in *. lia.
Qed.

(** X22. [read_buf] is never initialised: when the host hands back no byte
    at all, the string [TestRead] pushes for its caller is whatever the
    buffer's memory held before the call, up to its first NUL. *)
Theorem TestRead_empty_read_returns_stale_bytes
    (env : Env) (fd count : Z) (history : list HostCall) (m : Z -> byte)
    (log : list Access) (v : ParameterStack.Variant) (n : Z) :
  in_range int fd ->
  in_range size_t count ->
  firstn (Z.to_nat count) (host_out env history (sys_read fd count)) = [] ->
  find_nul m 0 (mapped env) = Some n ->
  exists s',
    run (TestRead env)
        {| params := ParameterStack.PushValue size_t count
                       (ParameterStack.PushValue int fd
                          (ParameterStack.empty v));
           calls := history; frame := m; accesses := log |}
    = Returned OkStatus s'
    /\ ParameterStack.entries (params s')
       = [map m (seqZ 0 (n + 1));
          encode ssize_t (host_ret env history (sys_read fd count))].
Proof.
  intros Hfd Hcount Hempty Hnul.
  unfold_entry_handler. cbn [length Nat.eqb ParameterStack.empty].
  repeat (rewrite length_encode; cbn [sizeof size_t int Nat.eqb]).
  rewrite (decode_encode size_t count Hcount), (decode_encode int fd Hfd).
  rewrite Hempty.
  rewrite (find_nul_ext (store m 0 []) m (store_nothing m 0)), Hnul.
  eexists. split; [reflexivity|].
  cbn [params ParameterStack.entries]. f_equal.
  apply map_ext. intros i. apply store_nothing.
Qed.

Lemma TestRead_long_read_leaves_read_buf_witness :
  In (Store 0 27)
     (accesses
        (outcome_state
           (run (TestRead Examples.reading_env)
                {| params := ParameterStack.PushValue size_t 27
                               (ParameterStack.PushValue int 3
                                  (ParameterStack.empty
                                     ParameterStack.Trusted));
                   calls := []; frame := Examples.zero_frame;
                   accesses := [] |})))
  /\ within_bounds read_buf_size (Store 0 27) = false
  /\ read_buf_size < 27.
Proof.
  apply (TestRead_long_read_leaves_read_buf Examples.reading_env 3 27 []
           Examples.zero_frame [] ParameterStack.Trusted).
  - vm_compute. split; [discriminate | reflexivity].
  - vm_compute. split; [discriminate | reflexivity].
  - vm_compute. reflexivity.
Defined.

Lemma TestRead_empty_read_returns_stale_bytes_witness :
  exists s',
    run (TestRead Examples.quiet_env)
        {| params := ParameterStack.PushValue size_t 8
                       (ParameterStack.PushValue int 3
                          (ParameterStack.empty ParameterStack.Trusted));
           calls := []; frame := MoreExamples.stale_frame; accesses := [] |}
    = Returned OkStatus s'
    /\ ParameterStack.entries (params s')
       = [map MoreExamples.stale_frame (seqZ 0 (3 + 1));
          encode ssize_t 0].
Proof.
  apply (TestRead_empty_read_returns_stale_bytes Examples.quiet_env 3 8 []
           MoreExamples.stale_frame [] ParameterStack.Trusted 3).
  - vm_compute. split; [discriminate | reflexivity].
  - vm_compute. split; [discriminate | reflexivity].
  - reflexivity.
  - reflexivity.
Defined.

End ReadBufferEdges.
